(** * stamp.h: STAMP / TWAMP-Light session-reflector helpers

    A shallow embedding of [headers/stamp.h]: the NTP timestamp codec
    ([timestamp], [untimestamp]), the frame classifier ([for_me]), the
    header turnaround ([pkt_turnaround]) and the offset helper
    ([stampoffset]).

    Conventions.
    - A C unsigned integer of width [w] is a [Z] in [[0, 2^w)]; every C
      operation that can leave that range is followed by an explicit
      reduction ([u32], [u64]).
    - Packet memory is a [list byte].  A multi-byte field read through a
      pointer ([iph->saddr], [udph->dest]) is the host-order combination
      of its bytes, so the host byte order is a parameter ([endian]) of
      every function that touches such a field or calls [bpf_htonl] and
      friends.
    - The frame is linear: the bytes between [skb->data] and
      [skb->data_end] are the whole packet the [bpf_skb_*_bytes] helpers
      operate on. *)

From Stdlib Require Import ZArith Lia List Bool Permutation.
From coqutil Require Import Byte Word.LittleEndianList.
Import ListNotations.
Local Open Scope Z_scope.

(** ** Machine integers *)

Definition u32 (z : Z) : Z := z mod 2 ^ 32.
Definition u64 (z : Z) : Z := z mod 2 ^ 64.

(** ** Byte order *)

Inductive endian : Type := LittleEndian | BigEndian.

(** Big-endian (network order) lists of bytes. *)
Definition be_combine (bs : list byte) : Z := le_combine (rev bs).
Definition be_split (n : nat) (z : Z) : list byte := rev (le_split n z).

(** What the host sees when it loads an [n]-byte integer from memory, and
    the bytes it writes when it stores one. *)
Definition host_load (e : endian) (bs : list byte) : Z :=
  match e with
  | LittleEndian => le_combine bs
  | BigEndian => be_combine bs
  end.

Definition host_store (e : endian) (n : nat) (z : Z) : list byte :=
  match e with
  | LittleEndian => le_split n z
  | BigEndian => be_split n z
  end.

(** [__builtin_bswap16] and [__builtin_bswap32]: reverse the bytes. *)
Definition bswap16 (x : Z) : Z := le_combine (rev (le_split 2 x)).
Definition bswap32 (x : Z) : Z := le_combine (rev (le_split 4 x)).

(** [bpf_endian.h]: the conversions are a byte swap on a little-endian
    host and the identity on a big-endian one; [hton] and [ntoh] are the
    same function. *)
Definition bpf_htons (e : endian) (x : Z) : Z :=
  match e with LittleEndian => bswap16 x | BigEndian => x end.
Definition bpf_ntohs (e : endian) (x : Z) : Z :=
  match e with LittleEndian => bswap16 x | BigEndian => x end.
Definition bpf_htonl (e : endian) (x : Z) : Z :=
  match e with LittleEndian => bswap32 x | BigEndian => x end.
Definition bpf_ntohl (e : endian) (x : Z) : Z :=
  match e with LittleEndian => bswap32 x | BigEndian => x end.

(** ** NTP conversion *)

Record ntp_ts : Type := mk_ntp_ts {
  ntp_secs : Z;   (* uint32_t *)
  ntp_fracs : Z   (* uint32_t *)
}.

(** The bytes of a [struct ntp_ts] as they lie in memory. *)
Definition ntp_ts_bytes (e : endian) (a : ntp_ts) : list byte :=
  host_store e 4 (ntp_secs a) ++ host_store e 4 (ntp_fracs a).

Definition NS_PER_SEC : Z := 1000000000.
Definition NTP_EPOCH_OFFSET : Z := 2208988800.

(** [timestamp]: [clock] is the value [bpf_ktime_get_tai_ns()] returns;
    the result is the struct written through [arg] and the return
    value. *)
Definition timestamp (e : endian) (clock : Z) : ntp_ts * Z :=
  let utns := u64 clock in
  let ntps := u64 (utns / NS_PER_SEC) in
  let ntpf := u64 (utns mod NS_PER_SEC) in
  let ntps := u64 (ntps + NTP_EPOCH_OFFSET) in
  let ntpf := u64 (ntpf * 1000) in
  let ntpf := u64 (ntpf / 232) in
  ({| ntp_secs := bpf_htonl e (u32 ntps);
      ntp_fracs := bpf_htonl e (u32 ntpf) |}, 0).

Definition untimestamp (e : endian) (arg : ntp_ts) : Z :=
  let unix_s := u64 (bpf_ntohl e (ntp_secs arg)) in
  let unix_ns := u64 (bpf_ntohl e (ntp_fracs arg)) in
  let unix_s := u64 (unix_s - NTP_EPOCH_OFFSET) in
  let unix_ns := u64 (unix_ns * 232) in
  let unix_ns := u64 (unix_ns / 1000) in
  let res := u64 (unix_s * NS_PER_SEC) in
  let res := u64 (res + unix_ns) in
  res.

(** The quantities the conversion is specified with, over unbounded
    integers. *)
Definition ntp_seconds_of (t : Z) : Z := t / NS_PER_SEC + NTP_EPOCH_OFFSET.
Definition ntp_fraction_of (t : Z) : Z := (t mod NS_PER_SEC) * 1000 / 232.

(** ** Wire layout *)

Definition sizeof_ethhdr : Z := 14.
Definition sizeof_iphdr : Z := 20.
Definition sizeof_udphdr : Z := 8.

(** [sizeof] has type [size_t] (64 bits on the BPF target), so the sum is
    computed in 64 bits and converted to [uint32_t] on return. *)
Definition stampoffset (offset : Z) : Z :=
  u32 (u64 (sizeof_ethhdr + sizeof_iphdr + sizeof_udphdr + offset)).

(** [sizeof(((struct senderpkt * )0)->seq)] *)
Definition sizeof_seq : Z := 4.

(** ** Packet memory and the execution monad *)

Record __sk_buff : Type := mk_skb {
  protocol : Z;        (* __u32, network byte order *)
  ifindex : Z;         (* __u32, the interface the frame arrived on *)
  pkt : list byte      (* the bytes from [data] to [data_end] *)
}.

(** Every access to packet memory is recorded, in program order. *)
Inductive access : Type :=
| PtrLoad (off len : Z)    (* dereference of a pointer into the packet *)
| SkbLoad (off len : Z)    (* bpf_skb_load_bytes *)
| SkbStore (off len : Z).  (* bpf_skb_store_bytes *)

Record machine : Type := mk_machine {
  skb : __sk_buff;
  tgt_index : option Z;    (* the interface recorded by bpf_redirect *)
  trace : list access
}.

(** A program is a state transformer that may fault: [None] is a pointer
    dereference outside [[data, data_end)]. *)
Definition M (A : Type) : Type := machine -> option (A * machine).

Definition ret {A : Type} (a : A) : M A := fun m => Some (a, m).

Definition bind {A B : Type} (c : M A) (k : A -> M B) : M B :=
  fun m => match c m with
           | Some (a, m') => k a m'
           | None => None
           end.

Notation "'do' x <- c ; k" := (bind c (fun x => k))
  (at level 10, x name, c at level 100, k at level 200).

Definition slice (off len : nat) (l : list byte) : list byte :=
  firstn len (skipn off l).

Definition splice (off : nat) (src l : list byte) : list byte :=
  firstn off l ++ src ++ skipn (off + length src) l.

Definition log (a : access) (m : machine) : machine :=
  {| skb := skb m; tgt_index := tgt_index m; trace := trace m ++ [a] |}.

Definition set_pkt (d : list byte) (m : machine) : machine :=
  {| skb := {| protocol := protocol (skb m); ifindex := ifindex (skb m); pkt := d |};
     tgt_index := tgt_index m; trace := trace m |}.

Definition ctx_protocol : M Z := fun m => Some (protocol (skb m), m).
Definition ctx_ifindex : M Z := fun m => Some (ifindex (skb m), m).

(** [data_end - data] *)
Definition data_room : M Z := fun m => Some (Z.of_nat (length (pkt (skb m))), m).

(** [*(uN * )(data + off)] with [N = 8 * len]. *)
Definition ptr_load (e : endian) (off len : Z) : M Z :=
  fun m =>
    if (off <? 0) || (off + len >? Z.of_nat (length (pkt (skb m)))) then None
    else Some (host_load e (slice (Z.to_nat off) (Z.to_nat len) (pkt (skb m))),
               log (PtrLoad off len) m).

Definition EFAULT : Z := 14.
Definition EINVAL : Z := 22.

(** [bpf_skb_store_bytes(skb, offset, from, len, flags)]: [from] is the
    list of the [len] bytes to write. *)
Definition bpf_skb_store_bytes (offset : Z) (from : list byte) (flags : Z) : M Z :=
  fun m =>
    let m := log (SkbStore offset (Z.of_nat (length from))) m in
    if negb (flags =? 0) then Some (- EINVAL, m)
    else if (offset <? 0) || (offset + Z.of_nat (length from) >? Z.of_nat (length (pkt (skb m))))
    then Some (- EFAULT, m)
    else Some (0, set_pkt (splice (Z.to_nat offset) from (pkt (skb m))) m).

(** [bpf_skb_load_bytes(skb, offset, to, len)]: the result carries the
    contents of [to] after the call (zeroed on failure). *)
Definition bpf_skb_load_bytes (offset len : Z) : M (Z * list byte) :=
  fun m =>
    let m := log (SkbLoad offset len) m in
    if (offset <? 0) || (offset + len >? Z.of_nat (length (pkt (skb m))))
    then Some ((- EFAULT, repeat Byte.x00 (Z.to_nat len)), m)
    else Some ((0, slice (Z.to_nat offset) (Z.to_nat len) (pkt (skb m))), m).

Definition TCX_PASS : Z := 0.
Definition TCX_SHOT : Z := 2.
Definition TCX_REDIRECT : Z := 7.
Definition BPF_F_INGRESS : Z := 1.

(** [bpf_redirect(ifindex, flags)] records the target interface and
    returns the redirect verdict. *)
Definition bpf_redirect (index flags : Z) : M Z :=
  fun m =>
    if (flags =? 0) || (flags =? BPF_F_INGRESS)
    then Some (TCX_REDIRECT,
               {| skb := skb m; tgt_index := Some index; trace := trace m |})
    else Some (TCX_SHOT, m).

(** ** Header constants *)

Definition ETH_P_IP : Z := 2048.       (* 0x0800 *)
Definition IPPROTO_UDP : Z := 17.
Definition ethhdr_h_dest : Z := 0.     (* offsetof(struct ethhdr, h_dest) *)
Definition ethhdr_h_source : Z := 6.
Definition iphdr_protocol : Z := 9.
Definition iphdr_saddr : Z := 12.
Definition iphdr_daddr : Z := 16.
Definition udphdr_source : Z := 0.
Definition udphdr_dest : Z := 2.

(** ** The classifier *)

Definition for_me (e : endian) : M Z :=
  do proto <- ctx_protocol;
  if negb (proto =? bpf_htons e ETH_P_IP) then ret TCX_PASS else
  do room <- data_room;
  if sizeof_iphdr + sizeof_ethhdr >? room then ret TCX_PASS else
  do ip_p <- ptr_load e (sizeof_ethhdr + iphdr_protocol) 1;
  if negb (ip_p =? IPPROTO_UDP) then ret TCX_PASS else
  if sizeof_iphdr + sizeof_udphdr + sizeof_ethhdr >? room then ret TCX_PASS else
  do dest <- ptr_load e (sizeof_iphdr + sizeof_ethhdr + udphdr_dest) 2;
  if negb (dest =? bpf_ntohs e 862) then ret TCX_PASS else
  do source <- ptr_load e (sizeof_iphdr + sizeof_ethhdr + udphdr_source) 2;
  if negb (source =? bpf_ntohs e 862) then ret TCX_PASS else
  ret 1.

(** ** The turnaround *)

Definition pkt_turnaround (e : endian) : M Z :=
  do room <- data_room;
  if sizeof_ethhdr + sizeof_iphdr >? room then ret TCX_PASS else
  do src_ip <- ptr_load e (sizeof_ethhdr + iphdr_saddr) 4;
  do dest_ip <- ptr_load e (sizeof_ethhdr + iphdr_daddr) 4;
  do _r <- bpf_skb_store_bytes (sizeof_ethhdr + iphdr_saddr) (host_store e 4 dest_ip) 0;
  do _r <- bpf_skb_store_bytes (sizeof_ethhdr + iphdr_daddr) (host_store e 4 src_ip) 0;
  if sizeof_ethhdr >? room then ret TCX_PASS else
  do src_mac <- bpf_skb_load_bytes ethhdr_h_source 6;
  do dest_mac <- bpf_skb_load_bytes ethhdr_h_dest 6;
  do _r <- bpf_skb_store_bytes ethhdr_h_source (snd dest_mac) 0;
  do _r <- bpf_skb_store_bytes ethhdr_h_dest (snd src_mac) 0;
  do idx <- ctx_ifindex;
  bpf_redirect idx 0.

(** Running a program on a frame as it arrives: nothing redirected, nothing
    accessed yet. *)
Definition arrive (s : __sk_buff) : machine :=
  {| skb := s; tgt_index := None; trace := [] |}.

(** ** Views of a frame *)

Definition eth_dest (d : list byte) : list byte := slice 0 6 d.
Definition eth_source (d : list byte) : list byte := slice 6 6 d.
Definition ip_saddr (d : list byte) : list byte := slice 26 4 d.
Definition ip_daddr (d : list byte) : list byte := slice 30 4 d.
Definition ip_proto (d : list byte) : Z := be_combine (slice 23 1 d).
Definition udp_source_port (d : list byte) : Z := be_combine (slice 34 2 d).
Definition udp_dest_port (d : list byte) : Z := be_combine (slice 36 2 d).


(** ** Sample frames *)

Definition mac_a : list byte := [Byte.x02; Byte.x00; Byte.x00; Byte.x00; Byte.x00; Byte.x0a].
Definition mac_b : list byte := [Byte.x02; Byte.x00; Byte.x00; Byte.x00; Byte.x00; Byte.x0b].
Definition ip_10_0_0_1 : list byte := [Byte.x0a; Byte.x00; Byte.x00; Byte.x01].
Definition ip_10_0_0_2 : list byte := [Byte.x0a; Byte.x00; Byte.x00; Byte.x02].

(** Sender packet with [seq = 7]: 44 bytes. *)
Definition sender_payload : list byte :=
  [Byte.x00; Byte.x00; Byte.x00; Byte.x07] ++ repeat Byte.x00 40.

(** An Ethernet/IPv4/UDP frame from [mac_a], 10.0.0.1 to [mac_b],
    10.0.0.2 with the given UDP ports. *)
Definition udp_frame (sport dport : Z) : list byte :=
  mac_b ++ mac_a ++ [Byte.x08; Byte.x00] ++
  [Byte.x45; Byte.x00; Byte.x00; Byte.x48; Byte.x00; Byte.x00; Byte.x40; Byte.x00;
   Byte.x40; Byte.x11; Byte.x00; Byte.x00] ++ ip_10_0_0_1 ++ ip_10_0_0_2 ++
  be_split 2 sport ++ be_split 2 dport ++ [Byte.x00; Byte.x34; Byte.x00; Byte.x00] ++
  sender_payload.

Definition sample_skb (e : endian) (sport dport : Z) : __sk_buff :=
  {| protocol := bpf_htons e ETH_P_IP; ifindex := 3; pkt := udp_frame sport dport |}.

Definition short_skb (e : endian) : __sk_buff :=
  {| protocol := bpf_htons e ETH_P_IP; ifindex := 3;
     pkt := firstn 33 (udp_frame 862 862) |}.

(** ** Specification vocabulary *)

(** [data_end - data] of a machine state. *)
Definition frame_len (m : machine) : Z := Z.of_nat (length (pkt (skb m))).

(** The frame with both address pairs exchanged and every other byte in
    place. *)
Definition turned (d : list byte) : list byte :=
  eth_source d ++ eth_dest d ++ slice 12 14 d ++ ip_daddr d ++ ip_saddr d ++ skipn 34 d.

(** The IP address exchange as the two [bpf_skb_store_bytes] calls perform
    it. *)
Definition swap_ips (e : endian) (d : list byte) : list byte :=
  splice 30 (host_store e 4 (host_load e (slice 26 4 d)))
    (splice 26 (host_store e 4 (host_load e (slice 30 4 d))) d).

(** The accesses of a complete run of [pkt_turnaround], in order. *)
Definition turnaround_trace : list access :=
  [PtrLoad 26 4; PtrLoad 30 4; SkbStore 26 4; SkbStore 30 4;
   SkbLoad 6 6; SkbLoad 0 6; SkbStore 6 6; SkbStore 0 6].

(** Offsets of the bytes of the two MAC and the two IP address fields. *)
Definition address_offset (i : nat) : bool :=
  (i <? 12)%nat || ((26 <=? i)%nat && (i <? 34)%nat).

(** The checks of [for_me] that come before the port comparison. *)
Definition passes_earlier_checks (e : endian) (s : __sk_buff) : Prop :=
  protocol s = bpf_htons e ETH_P_IP /\
  sizeof_ethhdr + sizeof_iphdr + sizeof_udphdr <= Z.of_nat (length (pkt s)) /\
  ip_proto (pkt s) = IPPROTO_UDP.

Definition both_ports_862 (d : list byte) : bool :=
  (udp_dest_port d =? 862) && (udp_source_port d =? 862).

(** An access that stays inside a frame of [n] bytes. *)
Definition in_bounds (n : Z) (a : access) : Prop :=
  match a with
  | PtrLoad off len | SkbLoad off len | SkbStore off len => 0 <= off /\ off + len <= n
  end.

(** ** Further vocabulary *)

(** The frames [for_me] takes: IPv4 link protocol, room for the three
    headers, UDP, both ports 862. *)
Definition for_me_accepts (e : endian) (s : __sk_buff) : bool :=
  (protocol s =? bpf_htons e ETH_P_IP) &&
  (sizeof_iphdr + sizeof_udphdr + sizeof_ethhdr <=? Z.of_nat (length (pkt s))) &&
  (ip_proto (pkt s) =? IPPROTO_UDP) &&
  both_ports_862 (pkt s).

Definition ETH_P_ARP : Z := 2054.

Definition IPPROTO_TCP : Z := 6.

(** More sample frames: an ARP ethertype, a TCP protocol byte, a frame cut
    inside the UDP header, and one with another IHL nibble and payload. *)
Definition arp_skb (e : endian) : __sk_buff :=
  {| protocol := bpf_htons e ETH_P_ARP; ifindex := 3; pkt := udp_frame 862 862 |}.

Definition tcp_skb (e : endian) : __sk_buff :=
  {| protocol := bpf_htons e ETH_P_IP; ifindex := 3;
     pkt := splice 23 [Byte.x06] (udp_frame 862 862) |}.

Definition cut_skb (e : endian) : __sk_buff :=
  {| protocol := bpf_htons e ETH_P_IP; ifindex := 3;
     pkt := firstn 40 (udp_frame 862 862) |}.

(** A pointer load that ends at or before offset [n]. *)
Definition is_ptr_load_below (n : Z) (a : access) : Prop :=
  match a with
  | PtrLoad off len => 0 <= off /\ off + len <= n
  | _ => False
  end.

Definition odd_skb (e : endian) : __sk_buff :=
  {| protocol := bpf_htons e ETH_P_IP; ifindex := 9;
     pkt := splice 14 [Byte.x46] (splice 50 [Byte.xff; Byte.xff] (udp_frame 862 862)) |}.

(** The 16-bit big-endian words the Internet checksum adds up; an odd last
    byte is padded with a zero byte. *)
Fixpoint words16 (bs : list byte) : list Z :=
  match bs with
  | a :: b :: tl => be_combine [a; b] :: words16 tl
  | [a] => [be_combine [a; Byte.x00]]
  | [] => []
  end.

Definition word_sum (bs : list byte) : Z := fold_right Z.add 0 (words16 bs).

(** The 20 bytes [struct iphdr] covers. *)
Definition ip_header (d : list byte) : list byte := slice 14 20 d.

(** Sample wire fields: NTP seconds in 2024 and in 1950, and the fraction
    one half. *)
Definition wire_2024 : list byte := [Byte.xe9; Byte.x3c; Byte.x9f; Byte.x00].

Definition wire_1950 : list byte := [Byte.x5e; Byte.x0b; Byte.xe1; Byte.x00].

Definition wire_half : list byte := [Byte.x80; Byte.x00; Byte.x00; Byte.x00].

(** [offsetof] and [sizeof] of a packed struct given by its fields in
    declaration order and their widths in bytes: no padding is inserted. *)
Fixpoint offsetof {F : Type} (eqb : F -> F -> bool) (width : F -> Z)
    (decl : list F) (f : F) : option Z :=
  match decl with
  | [] => None
  | g :: tl =>
      if eqb g f then Some 0
      else option_map (Z.add (width g)) (offsetof eqb width tl f)
  end.

Definition sizeof_packed {F : Type} (width : F -> Z) (decl : list F) : Z :=
  fold_right (fun g acc => width g + acc) 0 decl.

(** [struct senderpkt] and [struct reflectorpkt]: field names, declaration
    order and widths. *)
Module senderpkt.
Inductive field : Type := seq | t1_s | t1_f | err | mbz.
Definition decl : list field := [seq; t1_s; t1_f; err; mbz].
Definition width (f : field) : Z :=
  match f with
  | seq | t1_s | t1_f => 4
  | err => 2
  | mbz => 30
  end.
Definition eqb (f g : field) : bool :=
  match f, g with
  | seq, seq | t1_s, t1_s | t1_f, t1_f | err, err | mbz, mbz => true
  | _, _ => false
  end.
Definition off (f : field) : option Z := offsetof eqb width decl f.
Definition size : Z := sizeof_packed width decl.
End senderpkt.

Module reflectorpkt.
Inductive field : Type :=
  seq | t3_s | t3_f | err | mbz | t2_s | t2_f | s_seq | t1_s | t1_f
| s_err | s_mbz | ttl | t_mbz.
Definition decl : list field :=
  [seq; t3_s; t3_f; err; mbz; t2_s; t2_f; s_seq; t1_s; t1_f; s_err; s_mbz; ttl; t_mbz].
Definition width (f : field) : Z :=
  match f with
  | seq | t3_s | t3_f | t2_s | t2_f | s_seq | t1_s | t1_f => 4
  | err | mbz | s_err | s_mbz => 2
  | ttl => 1
  | t_mbz => 3
  end.
Definition eqb (f g : field) : bool :=
  match f, g with
  | seq, seq | t3_s, t3_s | t3_f, t3_f | err, err | mbz, mbz | t2_s, t2_s
  | t2_f, t2_f | s_seq, s_seq | t1_s, t1_s | t1_f, t1_f | s_err, s_err
  | s_mbz, s_mbz | ttl, ttl | t_mbz, t_mbz => true
  | _, _ => false
  end.
Definition off (f : field) : option Z := offsetof eqb width decl f.
Definition size : Z := sizeof_packed width decl.
(** The reflector field that carries the copy of a sender field. *)
Definition echo (f : senderpkt.field) : option field :=
  match f with
  | senderpkt.seq => Some s_seq
  | senderpkt.t1_s => Some t1_s
  | senderpkt.t1_f => Some t1_f
  | senderpkt.err => Some s_err
  | senderpkt.mbz => None
  end.
End reflectorpkt.

(** * Properties *)

(** ** Byte order *)

Lemma length_be_split n z : length (be_split n z) = n.
Proof. unfold be_split. rewrite length_rev. apply length_le_split. Qed.

Lemma be_combine_split n z : be_combine (be_split n z) = z mod 2 ^ (Z.of_nat n * 8).
Proof. unfold be_combine, be_split. rewrite rev_involutive. apply le_combine_split. Qed.

Lemma be_split_combine bs : be_split (length bs) (be_combine bs) = bs.
Proof.
  unfold be_combine, be_split.
  rewrite <- (length_rev bs), split_le_combine. apply rev_involutive.
Qed.

Lemma u32_idem x : u32 (u32 x) = u32 x.
Proof. unfold u32. apply Z.mod_mod. lia. Qed.

Lemma bswap32_involutive x : bswap32 (bswap32 x) = u32 x.
Proof.
  unfold bswap32.
  rewrite split_le_combine' by apply length_be_split.
  rewrite rev_involutive. apply le_combine_split.
Qed.

Lemma bswap16_combine bs :
  length bs = 2%nat -> bswap16 (le_combine (rev bs)) = le_combine bs.
Proof.
  intros H. unfold bswap16.
  rewrite split_le_combine' by (rewrite length_rev; assumption).
  rewrite rev_involutive. reflexivity.
Qed.

Lemma rev_singleton (bs : list byte) : length bs = 1%nat -> rev bs = bs.
Proof.
  destruct bs as [|b [|c bs]]; try discriminate. reflexivity.
Qed.

(** Facts that hold whatever the byte order of the host. *)
Section AnyHost.
Variable e : endian.

Lemma length_host_store n z : length (host_store e n z) = n.
Proof. destruct e; [apply length_le_split | apply length_be_split]. Qed.

Lemma host_store_load bs : host_store e (length bs) (host_load e bs) = bs.
Proof. destruct e; [apply split_le_combine | apply be_split_combine]. Qed.

Lemma host_store_load_4 bs :
  length bs = 4%nat -> host_store e 4 (host_load e bs) = bs.
Proof. intros <-. apply host_store_load. Qed.

Lemma host_load_store n z :
  host_load e (host_store e n z) = z mod 2 ^ (Z.of_nat n * 8).
Proof. destruct e; [apply le_combine_split | apply be_combine_split]. Qed.

Lemma host_load_1 bs : length bs = 1%nat -> host_load e bs = be_combine bs.
Proof.
  intros H. destruct e; [|reflexivity].
  unfold host_load, be_combine. rewrite rev_singleton by assumption. reflexivity.
Qed.

(** A field stored through [bpf_htonl] lies in memory in network order. *)
Lemma host_store_htonl x : host_store e 4 (bpf_htonl e x) = be_split 4 x.
Proof.
  destruct e; simpl; [|reflexivity].
  unfold bswap32. apply split_le_combine'. apply length_be_split.
Qed.

Lemma bpf_ntohl_htonl x : bpf_ntohl e (bpf_htonl e (u32 x)) = u32 x.
Proof.
  destruct e; simpl; [|reflexivity]. rewrite bswap32_involutive. apply u32_idem.
Qed.

(** Comparing a loaded 16-bit field with [bpf_ntohs x] is comparing its
    network-order value with [x]. *)
Lemma host_load_eqb_ntohs bs x :
  length bs = 2%nat -> 0 <= x < 2 ^ 16 ->
  (host_load e bs =? bpf_ntohs e x) = (be_combine bs =? x).
Proof.
  intros Hlen Hx. destruct e; [|reflexivity].
  unfold host_load, bpf_ntohs, be_combine.
  destruct (Z.eqb_spec (le_combine (rev bs)) x) as [E | E].
  - rewrite <- E, bswap16_combine by assumption. apply Z.eqb_refl.
  - apply Z.eqb_neq. intros E'. apply E.
    unfold bswap16 in E'. apply le_combine_inj in E'.
    + rewrite E', rev_involutive, le_combine_split.
      apply Z.mod_small. exact Hx.
    + rewrite length_rev, length_le_split. exact Hlen.
Qed.
End AnyHost.

(** ** The timestamp codec *)

Lemma timestamp_secs e t : 0 <= t < 2 ^ 64 ->
  ntp_secs (fst (timestamp e t)) = bpf_htonl e (u32 (ntp_seconds_of t)).
Proof.
  intros Ht. unfold timestamp, ntp_seconds_of, u64, NS_PER_SEC, NTP_EPOCH_OFFSET. simpl.
  rewrite (Z.mod_small t) by lia.
  rewrite (Z.mod_small (t / _)) by (split; [apply Z.div_pos; lia | apply Z.div_lt_upper_bound; lia]).
  rewrite Z.mod_small; [reflexivity|].
  assert (t / 1000000000 < 18446744074) by (apply Z.div_lt_upper_bound; lia).
  assert (0 <= t / 1000000000) by (apply Z.div_pos; lia). lia.
Qed.

Lemma timestamp_fracs e t : 0 <= t < 2 ^ 64 ->
  ntp_fracs (fst (timestamp e t)) = bpf_htonl e (u32 (ntp_fraction_of t)).
Proof.
  intros Ht. unfold timestamp, ntp_fraction_of, u64, NS_PER_SEC. simpl.
  rewrite (Z.mod_small t) by lia.
  pose proof (Z.mod_pos_bound t 1000000000 ltac:(lia)) as Hr.
  rewrite (Z.mod_small (t mod _)) by lia.
  rewrite (Z.mod_small (_ * 1000)) by lia.
  rewrite Z.mod_small; [reflexivity|].
  split; [apply Z.div_pos; lia | apply Z.div_lt_upper_bound; lia].
Qed.

Lemma untimestamp_timestamp e t : 0 <= t < 2 ^ 64 ->
  untimestamp e (fst (timestamp e t)) =
  u64 ((u32 (ntp_seconds_of t) - NTP_EPOCH_OFFSET) * NS_PER_SEC
       + u32 (ntp_fraction_of t) * 232 / 1000).
Proof.
  intros Ht. unfold untimestamp.
  rewrite timestamp_secs, timestamp_fracs, !bpf_ntohl_htonl by assumption.
  set (S := u32 (ntp_seconds_of t)). set (F := u32 (ntp_fraction_of t)).
  assert (HS : 0 <= S < 2 ^ 32) by (apply Z.mod_pos_bound; lia).
  assert (HF : 0 <= F < 2 ^ 32) by (apply Z.mod_pos_bound; lia).
  unfold u64.
  rewrite (Z.mod_small S), (Z.mod_small F) by lia.
  rewrite (Z.mod_small (F * 232)) by lia.
  rewrite (Z.mod_small (F * 232 / 1000))
    by (split; [apply Z.div_pos; lia | apply Z.div_lt_upper_bound; lia]).
  rewrite <- (Z.add_mod_idemp_l ((S - NTP_EPOCH_OFFSET) * NS_PER_SEC)) by lia.
  rewrite <- (Z.mul_mod_idemp_l (S - NTP_EPOCH_OFFSET)) by lia.
  reflexivity.
Qed.

Lemma fraction_overflows t :
  996432413 <= t mod NS_PER_SEC ->
  2 ^ 32 <= ntp_fraction_of t < 2 ^ 32 + 15377528.
Proof.
  unfold ntp_fraction_of, NS_PER_SEC. intros Hr.
  pose proof (Z.mod_pos_bound t 1000000000 ltac:(lia)) as Hb.
  split; [apply Z.div_le_lower_bound; lia | apply Z.div_lt_upper_bound; lia].
Qed.

Lemma roundtrip_wrapped e t :
  0 <= t < 2 ^ 64 -> 996432413 <= t mod NS_PER_SEC ->
  996432412 <= Z.abs (untimestamp e (fst (timestamp e t)) - t).
Proof.
  intros Ht Hr. rewrite untimestamp_timestamp by assumption.
  pose proof (fraction_overflows t Hr) as HF.
  unfold u32 at 2. 
  replace (ntp_fraction_of t mod 2 ^ 32) with (ntp_fraction_of t - 2 ^ 32).
  2:{ symmetry. rewrite <- (Z.mod_small (ntp_fraction_of t - 2 ^ 32) (2 ^ 32)) by lia.
      rewrite <- Zminus_mod_idemp_r, Z.mod_same, Z.sub_0_r by lia. reflexivity. }
  unfold ntp_fraction_of, ntp_seconds_of, u32, u64, NS_PER_SEC, NTP_EPOCH_OFFSET in *.
  change (2 ^ 32) with 4294967296 in *. change (2 ^ 64) with 18446744073709551616 in *.
  Z.div_mod_to_equations. lia.
Qed.

(** Outside the last 3.6 ms of a second the fraction fits in 32 bits and
    decoding loses at most one nanosecond. *)
Lemma roundtrip_below_wrap e t :
  0 <= t < 2 ^ 64 -> ntp_seconds_of t < 2 ^ 32 -> t mod NS_PER_SEC < 996432413 ->
  0 <= t - untimestamp e (fst (timestamp e t)) <= 1.
Proof.
  intros Ht Hs Hr. rewrite untimestamp_timestamp by assumption.
  unfold ntp_fraction_of, ntp_seconds_of, u32, u64, NS_PER_SEC, NTP_EPOCH_OFFSET in *.
  change (2 ^ 32) with 4294967296 in *. change (2 ^ 64) with 18446744073709551616 in *.
  Z.div_mod_to_equations. lia.
Qed.

(** C3: for a 64-bit clock value [t] whose seconds plus the epoch offset
    fit in 32 bits, [timestamp] returns 0 and leaves in memory, in network
    byte order, the seconds [t / 10^9 + 2208988800] followed by the low 32
    bits of the fraction [(t mod 10^9) * 1000 / 232]; the 64-bit
    intermediate values never wrap, so the fields are those of the
    unbounded computation. *)
Theorem timestamp_stores_ntp_fields e t :
  0 <= t < 2 ^ 64 -> ntp_seconds_of t < 2 ^ 32 ->
  ntp_ts_bytes e (fst (timestamp e t)) =
    be_split 4 (ntp_seconds_of t) ++ be_split 4 (u32 (ntp_fraction_of t)) /\
  be_combine (host_store e 4 (ntp_secs (fst (timestamp e t)))) = ntp_seconds_of t /\
  be_combine (host_store e 4 (ntp_fracs (fst (timestamp e t)))) = u32 (ntp_fraction_of t) /\
  snd (timestamp e t) = 0.
Proof.
  intros Ht Hs.
  assert (Hs0 : 0 <= ntp_seconds_of t).
  { unfold ntp_seconds_of, NS_PER_SEC, NTP_EPOCH_OFFSET.
    assert (0 <= t / 1000000000) by (apply Z.div_pos; lia). lia. }
  assert (Hu : u32 (ntp_seconds_of t) = ntp_seconds_of t)
    by (apply Z.mod_small; lia).
  unfold ntp_ts_bytes.
  rewrite timestamp_secs, timestamp_fracs, !host_store_htonl, Hu by assumption.
  rewrite !be_combine_split. change (2 ^ (Z.of_nat 4 * 8)) with (2 ^ 32).
  fold (u32 (ntp_seconds_of t)). fold (u32 (u32 (ntp_fraction_of t))).
  rewrite Hu, u32_idem. auto.
Qed.

Lemma timestamp_stores_ntp_fields_witness :
  (0 <= 1999999999 < 2 ^ 64 /\ ntp_seconds_of 1999999999 < 2 ^ 32) /\
  ntp_ts_bytes LittleEndian (fst (timestamp LittleEndian 1999999999)) =
    be_split 4 (ntp_seconds_of 1999999999) ++
    be_split 4 (u32 (ntp_fraction_of 1999999999)) /\
  be_combine (host_store LittleEndian 4
                (ntp_secs (fst (timestamp LittleEndian 1999999999)))) =
    ntp_seconds_of 1999999999 /\
  be_combine (host_store LittleEndian 4
                (ntp_fracs (fst (timestamp LittleEndian 1999999999)))) =
    u32 (ntp_fraction_of 1999999999) /\
  snd (timestamp LittleEndian 1999999999) = 0.
Proof.
  split.
  - split; [lia | reflexivity].
  - apply (timestamp_stores_ntp_fields LittleEndian 1999999999); [lia | reflexivity].
Defined.

(** C9: when the sub-second remainder of [t] is at least 996,432,413 ns
    the 64-bit quotient [(t mod 10^9) * 1000 / 232] exceeds [2^32 - 1];
    the stored fraction is that quotient minus [2^32], and decoding the
    stored timestamp misses [t] by at least 996,432,412 ns. *)
Theorem timestamp_fraction_wraps e t :
  0 <= t < 2 ^ 64 -> 996432413 <= t mod NS_PER_SEC ->
  2 ^ 32 - 1 < ntp_fraction_of t /\
  be_combine (host_store e 4 (ntp_fracs (fst (timestamp e t)))) =
    ntp_fraction_of t mod 2 ^ 32 /\
  ntp_fraction_of t mod 2 ^ 32 = ntp_fraction_of t - 2 ^ 32 /\
  996432412 <= Z.abs (untimestamp e (fst (timestamp e t)) - t).
Proof.
  intros Ht Hr. pose proof (fraction_overflows t Hr) as HF.
  repeat split.
  - lia.
  - rewrite timestamp_fracs, host_store_htonl, be_combine_split by assumption.
    change (2 ^ (Z.of_nat 4 * 8)) with (2 ^ 32). apply u32_idem.
  - rewrite <- (Z.mod_small (ntp_fraction_of t - 2 ^ 32) (2 ^ 32)) by lia.
    rewrite <- Zminus_mod_idemp_r, Z.mod_same, Z.sub_0_r by lia. reflexivity.
  - apply roundtrip_wrapped; assumption.
Qed.

Lemma timestamp_fraction_wraps_witness :
  (0 <= 5999000000 < 2 ^ 64 /\ 996432413 <= 5999000000 mod NS_PER_SEC) /\
  2 ^ 32 - 1 < ntp_fraction_of 5999000000 /\
  be_combine (host_store BigEndian 4 (ntp_fracs (fst (timestamp BigEndian 5999000000)))) =
    ntp_fraction_of 5999000000 mod 2 ^ 32 /\
  ntp_fraction_of 5999000000 mod 2 ^ 32 = ntp_fraction_of 5999000000 - 2 ^ 32 /\
  996432412 <= Z.abs (untimestamp BigEndian (fst (timestamp BigEndian 5999000000)) - 5999000000).
Proof.
  split.
  - split; [lia | vm_compute; discriminate].
  - apply (timestamp_fraction_wraps BigEndian 5999000000);
      [lia | vm_compute; discriminate].
Defined.

(** C2 at [t = 996432413] ns: the input is below [2^63] and its seconds
    fit in 32 bits after the epoch offset, yet the fraction
    [4294967297] is stored as [1] and the decoded time is [0], which is
    996,432,413 ns away from [t] instead of at most 232. *)
Theorem roundtrip_fails_at_wrap e :
  0 <= 996432413 < 2 ^ 63 /\
  ntp_seconds_of 996432413 < 2 ^ 32 /\
  ntp_fraction_of 996432413 = 2 ^ 32 + 1 /\
  be_combine (host_store e 4 (ntp_fracs (fst (timestamp e 996432413)))) = 1 /\
  untimestamp e (fst (timestamp e 996432413)) = 0 /\
  232 < Z.abs (untimestamp e (fst (timestamp e 996432413)) - 996432413).
Proof.
  destruct e; repeat split; try reflexivity; try lia; vm_compute; discriminate.
Qed.

(** ** The offset helper *)

(** C7 as written fails at the largest 32-bit offset: the sum
    [42 + 4294967295] does not fit the [uint32_t] result, which is 41. *)
Lemma stampoffset_wraps_at_max :
  stampoffset 4294967295 = 41 /\
  stampoffset 4294967295 <>
    sizeof_ethhdr + sizeof_iphdr + sizeof_udphdr + 4294967295.
Proof. split; [reflexivity | vm_compute; discriminate]. Qed.

(** C7, amended: for every 32-bit [off], [stampoffset off] is the sum of
    the three header sizes and [off] when that sum is below [2^32], and
    that sum minus [2^32] otherwise; [stampoffset 0 = 14 + 20 + 8 = 42]
    and [stampoffset sizeof_seq = 42 + 4]. *)
Theorem stampoffset_spec off :
  0 <= off < 2 ^ 32 ->
  stampoffset off =
    (if off <? 2 ^ 32 - 42
     then sizeof_ethhdr + sizeof_iphdr + sizeof_udphdr + off
     else sizeof_ethhdr + sizeof_iphdr + sizeof_udphdr + off - 2 ^ 32) /\
  stampoffset 0 = sizeof_ethhdr + sizeof_iphdr + sizeof_udphdr /\
  sizeof_ethhdr + sizeof_iphdr + sizeof_udphdr = 42 /\
  stampoffset sizeof_seq = 42 + 4.
Proof.
  intros Hoff. repeat split; try reflexivity.
  unfold stampoffset, u32, u64, sizeof_ethhdr, sizeof_iphdr, sizeof_udphdr.
  rewrite (Z.mod_small _ (2 ^ 64)) by lia.
  destruct (off <? 2 ^ 32 - 42) eqn:E.
  - apply Z.ltb_lt in E. apply Z.mod_small. lia.
  - apply Z.ltb_ge in E.
    rewrite <- (Z.mod_small (14 + 20 + 8 + off - 2 ^ 32) (2 ^ 32)) by lia.
    rewrite <- Zminus_mod_idemp_r, Z.mod_same, Z.sub_0_r by lia. reflexivity.
Qed.

Lemma stampoffset_spec_witness :
  0 <= 12 < 2 ^ 32 /\ stampoffset 12 = 54.
Proof.
  split; [lia|].
  destruct (stampoffset_spec 12 ltac:(lia)) as [H _]. exact H.
Defined.

(** ** Packet primitives *)

Lemma for_me_short e m :
  frame_len m < sizeof_ethhdr + sizeof_iphdr ->
  for_me e m = Some (TCX_PASS, m).
Proof.
  unfold frame_len, sizeof_ethhdr, sizeof_iphdr. intros Hlen.
  unfold for_me, bind, ctx_protocol, data_room, ret.
  destruct (negb (protocol (skb m) =? bpf_htons e ETH_P_IP)); [reflexivity|].
  unfold sizeof_ethhdr, sizeof_iphdr.
  destruct (20 + 14 >? Z.of_nat (length (pkt (skb m)))) eqn:E; [reflexivity | lia].
Qed.

Lemma pkt_turnaround_short e m :
  frame_len m < sizeof_ethhdr + sizeof_iphdr ->
  pkt_turnaround e m = Some (TCX_PASS, m).
Proof.
  unfold frame_len, sizeof_ethhdr, sizeof_iphdr. intros Hlen.
  unfold pkt_turnaround, bind, data_room, ret.
  unfold sizeof_ethhdr, sizeof_iphdr.
  destruct (14 + 20 >? Z.of_nat (length (pkt (skb m)))) eqn:E; [reflexivity | lia].
Qed.

Lemma long_frame (d : list byte) :
  34 <= Z.of_nat (length d) ->
  exists hd tl, d = hd ++ tl /\ length hd = 34%nat.
Proof.
  intros H. exists (firstn 34 d), (skipn 34 d). split.
  - symmetry. apply firstn_skipn.
  - apply firstn_length_le. lia.
Qed.

Ltac explode hd :=
  repeat (let b := fresh "b" in destruct hd as [|b hd]; [discriminate|]);
  destruct hd; [|discriminate].

Lemma bind_some {A B} (c : M A) (k : A -> M B) m a m' :
  c m = Some (a, m') -> bind c k m = k a m'.
Proof. unfold bind. intros ->. reflexivity. Qed.

Lemma frame_len_log a m : frame_len (log a m) = frame_len m.
Proof. reflexivity. Qed.

Lemma length_splice off src d :
  (off + length src <= length d)%nat -> length (splice off src d) = length d.
Proof.
  intros H. unfold splice.
  rewrite !length_app, firstn_length_le, length_skipn by lia. lia.
Qed.

Lemma frame_len_set_pkt off src m :
  0 <= off -> off + Z.of_nat (length src) <= frame_len m ->
  frame_len (set_pkt (splice (Z.to_nat off) src (pkt (skb m))) m) = frame_len m.
Proof.
  unfold frame_len. intros H0 H. simpl. rewrite length_splice; [reflexivity | lia].
Qed.

Lemma ptr_load_ok e off len m :
  0 <= off -> off + len <= frame_len m ->
  ptr_load e off len m =
  Some (host_load e (slice (Z.to_nat off) (Z.to_nat len) (pkt (skb m))),
        log (PtrLoad off len) m).
Proof.
  unfold frame_len, ptr_load. intros H0 H.
  destruct (off <? 0) eqn:E0; [lia|].
  destruct (off + len >? Z.of_nat (length (pkt (skb m)))) eqn:E1; [lia | reflexivity].
Qed.

Lemma bpf_skb_store_bytes_ok off from m :
  0 <= off -> off + Z.of_nat (length from) <= frame_len m ->
  bpf_skb_store_bytes off from 0 m =
  Some (0, log (SkbStore off (Z.of_nat (length from)))
             (set_pkt (splice (Z.to_nat off) from (pkt (skb m))) m)).
Proof.
  unfold frame_len, bpf_skb_store_bytes. intros H0 H. simpl.
  destruct (off <? 0) eqn:E0; [lia|].
  destruct (off + Z.of_nat (length from) >? Z.of_nat (length (pkt (skb m)))) eqn:E1;
    [lia | reflexivity].
Qed.

Lemma bpf_skb_load_bytes_ok off len m :
  0 <= off -> off + len <= frame_len m ->
  bpf_skb_load_bytes off len m =
  Some ((0, slice (Z.to_nat off) (Z.to_nat len) (pkt (skb m))),
        log (SkbLoad off len) m).
Proof.
  unfold frame_len, bpf_skb_load_bytes. intros H0 H. simpl.
  destruct (off <? 0) eqn:E0; [lia|].
  destruct (off + len >? Z.of_nat (length (pkt (skb m)))) eqn:E1; [lia | reflexivity].
Qed.

Lemma length_slice off len d :
  (off + len <= length d)%nat -> length (slice off len d) = len.
Proof. intros H. unfold slice. rewrite firstn_length_le; [reflexivity|]. rewrite length_skipn. lia. Qed.

Lemma length_slice_frame off len m :
  0 <= off -> 0 <= len -> off + len <= frame_len m ->
  Z.of_nat (length (slice (Z.to_nat off) (Z.to_nat len) (pkt (skb m)))) = len.
Proof.
  unfold frame_len. intros H0 H1 H. rewrite length_slice; lia.
Qed.

Ltac frame_side :=
  unfold frame_len in *;
  cbn [skb pkt snd fst log set_pkt] in *;
  repeat first
    [ rewrite length_host_store
    | rewrite length_splice by frame_side
    | rewrite length_slice by frame_side ];
  lia.

Lemma turned_explicit e d :
  34 <= Z.of_nat (length d) ->
  splice 0 (slice 6 6 (swap_ips e d))
    (splice 6 (slice 0 6 (swap_ips e d)) (swap_ips e d)) = turned d.
Proof.
  intros Hlen.
  destruct (long_frame d Hlen) as (hd & tl & -> & Hhd).
  explode hd. unfold swap_ips.
  cbn [slice skipn firstn app].
  rewrite !host_store_load_4 by reflexivity.
  reflexivity.
Qed.

Ltac norm :=
  cbv beta iota;
  cbn [log set_pkt skb pkt trace tgt_index protocol ifindex snd fst];
  rewrite ?length_host_store.

Ltac step lem :=
  erewrite bind_some by (apply lem; frame_side); norm.

Lemma pkt_turnaround_run e m :
  sizeof_ethhdr + sizeof_iphdr <= frame_len m ->
  pkt_turnaround e m =
  Some (TCX_REDIRECT,
        {| skb := {| protocol := protocol (skb m); ifindex := ifindex (skb m);
                     pkt := turned (pkt (skb m)) |};
           tgt_index := Some (ifindex (skb m));
           trace := trace m ++ turnaround_trace |}).
Proof.
  unfold sizeof_ethhdr, sizeof_iphdr. intros Hlen.
  unfold pkt_turnaround.
  rewrite (bind_some data_room _ m (frame_len m) m) by reflexivity.
  unfold sizeof_ethhdr, sizeof_iphdr, iphdr_saddr, iphdr_daddr,
    ethhdr_h_source, ethhdr_h_dest.
  destruct (14 + 20 >? frame_len m) eqn:E1; [lia|].
  destruct (14 >? frame_len m) eqn:E2; [lia|].
  destruct m as [[p i d] tg tr]. norm.
  step ptr_load_ok. step ptr_load_ok.
  step bpf_skb_store_bytes_ok. step bpf_skb_store_bytes_ok.
  step bpf_skb_load_bytes_ok. step bpf_skb_load_bytes_ok.
  step bpf_skb_store_bytes_ok. step bpf_skb_store_bytes_ok.
  erewrite bind_some by reflexivity. norm.
  unfold bpf_redirect. norm. cbn [Z.eqb orb skb tgt_index trace].
  rewrite !length_slice by frame_side.
  change (Z.to_nat (14 + 12)) with 26%nat. change (Z.to_nat (14 + 16)) with 30%nat.
  change (Z.to_nat 0) with 0%nat. change (Z.to_nat 6) with 6%nat.
  change (Z.to_nat 4) with 4%nat.
  fold (swap_ips e d). rewrite (turned_explicit e d) by frame_side.
  rewrite <- !app_assoc. reflexivity.
Qed.

Lemma pkt_turnaround_long e s :
  sizeof_ethhdr + sizeof_iphdr <= Z.of_nat (length (pkt s)) ->
  pkt_turnaround e (arrive s) =
  Some (TCX_REDIRECT,
        {| skb := {| protocol := protocol s; ifindex := ifindex s;
                     pkt := turned (pkt s) |};
           tgt_index := Some (ifindex s);
           trace := turnaround_trace |}).
Proof. intros H. apply (pkt_turnaround_run e (arrive s)). exact H. Qed.

Lemma length_turned d :
  34 <= Z.of_nat (length d) -> length (turned d) = length d.
Proof.
  intros Hlen.
  destruct (long_frame d Hlen) as (hd & tl & -> & Hhd).
  explode hd. reflexivity.
Qed.

Lemma turned_involutive d :
  34 <= Z.of_nat (length d) -> turned (turned d) = d.
Proof.
  intros Hlen.
  destruct (long_frame d Hlen) as (hd & tl & -> & Hhd).
  explode hd. reflexivity.
Qed.

Lemma turned_addresses d :
  34 <= Z.of_nat (length d) ->
  eth_dest (turned d) = eth_source d /\ eth_source (turned d) = eth_dest d /\
  ip_saddr (turned d) = ip_daddr d /\ ip_daddr (turned d) = ip_saddr d.
Proof.
  intros Hlen.
  destruct (long_frame d Hlen) as (hd & tl & -> & Hhd).
  explode hd. repeat split; reflexivity.
Qed.

Lemma turned_elsewhere d i :
  34 <= Z.of_nat (length d) -> address_offset i = false ->
  nth_error (turned d) i = nth_error d i.
Proof.
  intros Hlen Hi.
  destruct (long_frame d Hlen) as (hd & tl & -> & Hhd).
  explode hd.
  do 34 (destruct i as [|i]; [try reflexivity; discriminate Hi|]).
  reflexivity.
Qed.

Lemma for_me_run e s :
  passes_earlier_checks e s ->
  exists tr,
    for_me e (arrive s) =
    Some (if both_ports_862 (pkt s) then 1 else TCX_PASS,
          {| skb := s; tgt_index := None; trace := tr |}).
Proof.
  intros (Hp & Hlen & Hudp). destruct s as [p i d].
  unfold sizeof_ethhdr, sizeof_iphdr, sizeof_udphdr in Hlen.
  cbn [protocol pkt] in *.
  unfold for_me, arrive.
  rewrite (bind_some ctx_protocol _ _ p _) by reflexivity.
  rewrite Hp, Z.eqb_refl. cbn [negb].
  erewrite bind_some by reflexivity. norm.
  unfold sizeof_ethhdr, sizeof_iphdr, sizeof_udphdr, iphdr_protocol,
    udphdr_dest, udphdr_source.
  destruct (20 + 14 >? Z.of_nat (length d)) eqn:E1; [lia|].
  destruct (20 + 8 + 14 >? Z.of_nat (length d)) eqn:E2; [lia|].
  step ptr_load_ok.
  change (Z.to_nat (14 + 9)) with 23%nat. change (Z.to_nat 1) with 1%nat.
  rewrite host_load_1 by (apply length_slice; lia).
  fold (ip_proto d). rewrite Hudp, Z.eqb_refl. cbn [negb].
  step ptr_load_ok.
  change (Z.to_nat (20 + 14 + 2)) with 36%nat. change (Z.to_nat 2) with 2%nat.
  rewrite host_load_eqb_ntohs by (first [apply length_slice | idtac]; lia).
  unfold both_ports_862. fold (udp_dest_port d).
  destruct (udp_dest_port d =? 862); cbn [negb andb].
  - step ptr_load_ok.
    change (Z.to_nat (20 + 14 + 0)) with 34%nat. change (Z.to_nat 2) with 2%nat.
    rewrite host_load_eqb_ntohs by (first [apply length_slice | idtac]; lia).
    fold (udp_source_port d).
    destruct (udp_source_port d =? 862); cbn [negb]; eexists; reflexivity.
  - eexists; reflexivity.
Qed.

(** [for_me] never dereferences outside the frame and never writes. *)
Lemma for_me_safe e s :
  exists v tr,
    for_me e (arrive s) = Some (v, {| skb := s; tgt_index := None; trace := tr |}) /\
    Forall (in_bounds (Z.of_nat (length (pkt s)))) tr.
Proof.
  destruct s as [p i d].
  unfold for_me, bind, ctx_protocol, data_room, ptr_load, ret, arrive, log.
  cbn [skb pkt protocol trace tgt_index app].
  unfold sizeof_ethhdr, sizeof_iphdr, sizeof_udphdr, iphdr_protocol,
    udphdr_dest, udphdr_source.
  repeat match goal with
         | |- context [if ?c then _ else _] =>
             destruct c eqn:?;
             cbn [skb pkt protocol trace tgt_index app orb negb] in *
         end;
    try lia;
    do 2 eexists; (split; [reflexivity|]);
    repeat constructor; lia.
Qed.

(** [pkt_turnaround] never dereferences outside the frame either. *)
Lemma pkt_turnaround_safe e s :
  exists v m',
    pkt_turnaround e (arrive s) = Some (v, m') /\
    Forall (in_bounds (Z.of_nat (length (pkt s)))) (trace m').
Proof.
  destruct (Z_lt_le_dec (Z.of_nat (length (pkt s))) (sizeof_ethhdr + sizeof_iphdr))
    as [Hshort | Hlong].
  - do 2 eexists. split; [apply (pkt_turnaround_short e (arrive s)); exact Hshort|].
    constructor.
  - do 2 eexists. split; [apply pkt_turnaround_long; exact Hlong|].
    unfold sizeof_ethhdr, sizeof_iphdr in Hlong.
    repeat constructor; cbn; lia.
Qed.

(** ** The classifier *)

(** C1 as written fails: the sample frame with source port 862 and
    destination port 1000 passes every earlier check and has one port
    equal to 862, yet [for_me] returns pass-through. *)
Lemma for_me_one_port_is_rejected :
  ~ (forall e s, passes_earlier_checks e s ->
       (option_map fst (for_me e (arrive s)) = Some TCX_PASS <->
        udp_source_port (pkt s) <> 862 /\ udp_dest_port (pkt s) <> 862)).
Proof.
  intros H.
  destruct (H LittleEndian (sample_skb LittleEndian 862 1000)) as [Hrej _].
  - repeat split; vm_compute; discriminate.
  - destruct Hrej as [Hsrc _]; [reflexivity|].
    apply Hsrc. reflexivity.
Qed.

(** C1, amended: for a frame that passes the earlier checks (IPv4 link
    protocol, room for the link, network and transport headers, UDP as
    the network protocol), [for_me] returns pass-through if and only if
    at least one of the two UDP ports differs from 862, and returns 1 if
    and only if both ports equal 862; the frame is not modified. *)
Theorem for_me_accepts_iff_both_ports e s :
  passes_earlier_checks e s ->
  (option_map fst (for_me e (arrive s)) = Some TCX_PASS <->
   udp_source_port (pkt s) <> 862 \/ udp_dest_port (pkt s) <> 862) /\
  (option_map fst (for_me e (arrive s)) = Some 1 <->
   udp_source_port (pkt s) = 862 /\ udp_dest_port (pkt s) = 862) /\
  option_map (fun r => skb (snd r)) (for_me e (arrive s)) = Some s.
Proof.
  intros Hpass. destruct (for_me_run e s Hpass) as [tr ->].
  cbn [option_map fst snd skb].
  unfold both_ports_862, TCX_PASS.
  destruct (Z.eqb_spec (udp_dest_port (pkt s)) 862),
           (Z.eqb_spec (udp_source_port (pkt s)) 862);
    cbn [andb]; intuition congruence.
Qed.

Lemma for_me_accepts_iff_both_ports_witness :
  passes_earlier_checks BigEndian (sample_skb BigEndian 862 862) /\
  option_map fst (for_me BigEndian (arrive (sample_skb BigEndian 862 862))) = Some 1.
Proof.
  assert (Hp : passes_earlier_checks BigEndian (sample_skb BigEndian 862 862))
    by (repeat split; vm_compute; discriminate).
  split; [exact Hp|].
  destruct (for_me_accepts_iff_both_ports BigEndian (sample_skb BigEndian 862 862) Hp)
    as (_ & Hacc & _).
  apply Hacc. split; reflexivity.
Defined.

(** C8: on a frame shorter than the link header plus the network header
    [for_me] returns pass-through whatever the frame and the context
    fields hold, and it returns before any access to packet memory: the
    access trace is empty. *)
Theorem for_me_rejects_short_frames e s :
  Z.of_nat (length (pkt s)) < sizeof_ethhdr + sizeof_iphdr ->
  for_me e (arrive s) = Some (TCX_PASS, arrive s) /\
  option_map (fun r => trace (snd r)) (for_me e (arrive s)) = Some [].
Proof.
  intros Hlen. rewrite (for_me_short e (arrive s)) by exact Hlen.
  split; reflexivity.
Qed.

Lemma for_me_rejects_short_frames_witness :
  Z.of_nat (length (pkt (short_skb LittleEndian))) < sizeof_ethhdr + sizeof_iphdr /\
  for_me LittleEndian (arrive (short_skb LittleEndian)) =
    Some (TCX_PASS, arrive (short_skb LittleEndian)).
Proof.
  split; [reflexivity|].
  apply (for_me_rejects_short_frames LittleEndian (short_skb LittleEndian)).
  reflexivity.
Defined.

(** ** The turnaround *)

Lemma turned_tail d :
  34 <= Z.of_nat (length d) -> skipn 34 (turned d) = skipn 34 d.
Proof.
  intros Hlen.
  destruct (long_frame d Hlen) as (hd & tl & -> & Hhd).
  explode hd. reflexivity.
Qed.

(** C4: on a frame that holds the link and network headers
    [pkt_turnaround] returns the redirect verdict with the ingress
    interface recorded as target; the frame keeps its length, the two MAC
    fields and the two IP address fields are exchanged, and every byte at
    any other offset, the UDP header and the payload among them, is the
    byte that was there before. *)
Theorem pkt_turnaround_swaps_addresses_only e s :
  sizeof_ethhdr + sizeof_iphdr <= Z.of_nat (length (pkt s)) ->
  exists m',
    pkt_turnaround e (arrive s) = Some (TCX_REDIRECT, m') /\
    tgt_index m' = Some (ifindex s) /\
    protocol (skb m') = protocol s /\
    ifindex (skb m') = ifindex s /\
    length (pkt (skb m')) = length (pkt s) /\
    eth_dest (pkt (skb m')) = eth_source (pkt s) /\
    eth_source (pkt (skb m')) = eth_dest (pkt s) /\
    ip_saddr (pkt (skb m')) = ip_daddr (pkt s) /\
    ip_daddr (pkt (skb m')) = ip_saddr (pkt s) /\
    (forall i, address_offset i = true \/
               nth_error (pkt (skb m')) i = nth_error (pkt s) i) /\
    udp_source_port (pkt (skb m')) = udp_source_port (pkt s) /\
    udp_dest_port (pkt (skb m')) = udp_dest_port (pkt s) /\
    skipn 34 (pkt (skb m')) = skipn 34 (pkt s).
Proof.
  intros Hlen. eexists. split; [apply pkt_turnaround_long; exact Hlen|].
  unfold sizeof_ethhdr, sizeof_iphdr in Hlen.
  cbn [skb pkt tgt_index protocol ifindex].
  destruct (turned_addresses (pkt s)) as (Hd & Hs & Hsa & Hda); [lia|].
  assert (Htail : skipn 34 (turned (pkt s)) = skipn 34 (pkt s))
    by (apply turned_tail; lia).
  assert (Hsl : forall off len, (34 <= off)%nat ->
            slice off len (turned (pkt s)) = slice off len (pkt s)).
  { intros off len Hoff. unfold slice.
    replace off with ((off - 34) + 34)%nat by lia.
    rewrite <- !skipn_skipn, Htail. reflexivity. }
  repeat split; try assumption.
  - apply length_turned. lia.
  - intros i. destruct (address_offset i) eqn:Hi; [left; reflexivity | right].
    apply turned_elsewhere; [lia | exact Hi].
  - unfold udp_source_port. rewrite Hsl by lia. reflexivity.
  - unfold udp_dest_port. rewrite Hsl by lia. reflexivity.
Qed.

Lemma pkt_turnaround_swaps_addresses_only_witness :
  sizeof_ethhdr + sizeof_iphdr <=
    Z.of_nat (length (pkt (sample_skb LittleEndian 862 862))) /\
  exists m',
    pkt_turnaround LittleEndian (arrive (sample_skb LittleEndian 862 862)) =
      Some (TCX_REDIRECT, m') /\
    tgt_index m' = Some 3 /\
    eth_dest (pkt (skb m')) = mac_a /\ eth_source (pkt (skb m')) = mac_b /\
    ip_saddr (pkt (skb m')) = ip_10_0_0_2 /\ ip_daddr (pkt (skb m')) = ip_10_0_0_1 /\
    udp_source_port (pkt (skb m')) = 862 /\ udp_dest_port (pkt (skb m')) = 862 /\
    skipn 42 (pkt (skb m')) = sender_payload.
Proof.
  assert (Hlen : sizeof_ethhdr + sizeof_iphdr <=
                 Z.of_nat (length (pkt (sample_skb LittleEndian 862 862))))
    by (vm_compute; discriminate).
  split; [exact Hlen|].
  destruct (pkt_turnaround_swaps_addresses_only LittleEndian
              (sample_skb LittleEndian 862 862) Hlen)
    as (m' & Hrun & Htgt & _ & _ & _ & Hd & Hs & Hsa & Hda & _ & Hsp & Hdp & Htl).
  exists m'. repeat split; try assumption.
  change 42%nat with (8 + 34)%nat. rewrite <- skipn_skipn, Htl. reflexivity.
Defined.

(** C5: on a frame shorter than the link header plus the network header
    [pkt_turnaround] returns pass-through and the machine it leaves is the
    one it found: same bytes, no access to packet memory, no redirect
    target. *)
Theorem pkt_turnaround_short_frame_untouched e s :
  Z.of_nat (length (pkt s)) < sizeof_ethhdr + sizeof_iphdr ->
  pkt_turnaround e (arrive s) = Some (TCX_PASS, arrive s) /\
  option_map (fun r => pkt (skb (snd r))) (pkt_turnaround e (arrive s)) = Some (pkt s).
Proof.
  intros Hlen. rewrite (pkt_turnaround_short e (arrive s)) by exact Hlen.
  split; reflexivity.
Qed.

Lemma pkt_turnaround_short_frame_untouched_witness :
  Z.of_nat (length (pkt (short_skb BigEndian))) < sizeof_ethhdr + sizeof_iphdr /\
  pkt_turnaround BigEndian (arrive (short_skb BigEndian)) =
    Some (TCX_PASS, arrive (short_skb BigEndian)).
Proof.
  split; [reflexivity|].
  apply (pkt_turnaround_short_frame_untouched BigEndian (short_skb BigEndian)).
  reflexivity.
Defined.

(** C6: running [pkt_turnaround] on a frame with the link and network
    headers and then again on the frame it produced gives back the
    original source and destination MAC addresses and IP addresses;
    indeed the whole buffer is the original one. *)
Theorem pkt_turnaround_twice_restores e s :
  sizeof_ethhdr + sizeof_iphdr <= Z.of_nat (length (pkt s)) ->
  exists m1 m2,
    pkt_turnaround e (arrive s) = Some (TCX_REDIRECT, m1) /\
    pkt_turnaround e (arrive (skb m1)) = Some (TCX_REDIRECT, m2) /\
    eth_source (pkt (skb m2)) = eth_source (pkt s) /\
    eth_dest (pkt (skb m2)) = eth_dest (pkt s) /\
    ip_saddr (pkt (skb m2)) = ip_saddr (pkt s) /\
    ip_daddr (pkt (skb m2)) = ip_daddr (pkt s) /\
    skb m2 = s.
Proof.
  intros Hlen. do 2 eexists.
  split; [apply pkt_turnaround_long; exact Hlen|].
  unfold sizeof_ethhdr, sizeof_iphdr in Hlen.
  split.
  - apply pkt_turnaround_long. cbn [skb pkt].
    rewrite length_turned by lia. exact Hlen.
  - cbn [skb pkt protocol ifindex].
    rewrite turned_involutive by lia.
    destruct s; repeat split; reflexivity.
Qed.

Lemma pkt_turnaround_twice_restores_witness :
  sizeof_ethhdr + sizeof_iphdr <=
    Z.of_nat (length (pkt (sample_skb BigEndian 862 862))) /\
  exists m1 m2,
    pkt_turnaround BigEndian (arrive (sample_skb BigEndian 862 862)) =
      Some (TCX_REDIRECT, m1) /\
    pkt_turnaround BigEndian (arrive (skb m1)) = Some (TCX_REDIRECT, m2) /\
    skb m2 = sample_skb BigEndian 862 862.
Proof.
  assert (Hlen : sizeof_ethhdr + sizeof_iphdr <=
                 Z.of_nat (length (pkt (sample_skb BigEndian 862 862))))
    by (vm_compute; discriminate).
  split; [exact Hlen|].
  destruct (pkt_turnaround_twice_restores BigEndian
              (sample_skb BigEndian 862 862) Hlen)
    as (m1 & m2 & H1 & H2 & _ & _ & _ & _ & Heq).
  exists m1, m2. repeat split; assumption.
Defined.

(** C10: the second bounds check of [pkt_turnaround] cannot fail once the
    first one has passed, so a run either returns pass-through at the
    first check, with the machine untouched, or performs all eight
    accesses and both exchanges and returns the redirect verdict; the run
    that stops after the IP exchange does not exist. *)
Theorem pkt_turnaround_all_or_nothing e s room :
  (sizeof_ethhdr + sizeof_iphdr >? room) || negb (sizeof_ethhdr >? room) = true /\
  (pkt_turnaround e (arrive s) = Some (TCX_PASS, arrive s) \/
   pkt_turnaround e (arrive s) =
     Some (TCX_REDIRECT,
           {| skb := {| protocol := protocol s; ifindex := ifindex s;
                        pkt := turned (pkt s) |};
              tgt_index := Some (ifindex s);
              trace := turnaround_trace |}) /\
   eth_dest (turned (pkt s)) = eth_source (pkt s) /\
   eth_source (turned (pkt s)) = eth_dest (pkt s) /\
   ip_saddr (turned (pkt s)) = ip_daddr (pkt s) /\
   ip_daddr (turned (pkt s)) = ip_saddr (pkt s)).
Proof.
  split.
  - unfold sizeof_ethhdr, sizeof_iphdr.
    destruct (14 + 20 >? room) eqn:E1; [reflexivity|].
    destruct (14 >? room) eqn:E2; [lia | reflexivity].
  - destruct (Z_lt_le_dec (Z.of_nat (length (pkt s))) (sizeof_ethhdr + sizeof_iphdr))
      as [Hshort | Hlong].
    + left. apply (pkt_turnaround_short e (arrive s)). exact Hshort.
    + right. split; [apply pkt_turnaround_long; exact Hlong|].
      apply turned_addresses. exact Hlong.
Qed.

(** * Further properties *)

(** ** The classifier on every frame *)

Lemma for_me_not_ip e m :
  protocol (skb m) <> bpf_htons e ETH_P_IP -> for_me e m = Some (TCX_PASS, m).
Proof.
  intros Hp. unfold for_me.
  rewrite (bind_some ctx_protocol _ m (protocol (skb m)) m) by reflexivity.
  apply Z.eqb_neq in Hp. rewrite Hp. reflexivity.
Qed.

Lemma for_me_not_udp e s :
  protocol s = bpf_htons e ETH_P_IP ->
  sizeof_iphdr + sizeof_ethhdr <= Z.of_nat (length (pkt s)) ->
  ip_proto (pkt s) <> IPPROTO_UDP ->
  for_me e (arrive s) =
  Some (TCX_PASS, {| skb := s; tgt_index := None; trace := [PtrLoad 23 1] |}).
Proof.
  intros Hp Hlen Hudp. destruct s as [p i d].
  unfold sizeof_ethhdr, sizeof_iphdr in Hlen. cbn [protocol pkt] in *.
  unfold for_me, arrive.
  rewrite (bind_some ctx_protocol _ _ p _) by reflexivity.
  rewrite Hp, Z.eqb_refl. cbn [negb].
  erewrite bind_some by reflexivity. norm.
  unfold sizeof_ethhdr, sizeof_iphdr, iphdr_protocol.
  destruct (20 + 14 >? Z.of_nat (length d)) eqn:E1; [lia|].
  step ptr_load_ok.
  change (Z.to_nat (14 + 9)) with 23%nat. change (Z.to_nat 1) with 1%nat.
  rewrite host_load_1 by (apply length_slice; lia).
  fold (ip_proto d). apply Z.eqb_neq in Hudp. rewrite Hudp. reflexivity.
Qed.

Lemma for_me_no_udp_header e s :
  protocol s = bpf_htons e ETH_P_IP ->
  sizeof_iphdr + sizeof_ethhdr <= Z.of_nat (length (pkt s)) ->
  Z.of_nat (length (pkt s)) < sizeof_iphdr + sizeof_udphdr + sizeof_ethhdr ->
  ip_proto (pkt s) = IPPROTO_UDP ->
  for_me e (arrive s) =
  Some (TCX_PASS, {| skb := s; tgt_index := None; trace := [PtrLoad 23 1] |}).
Proof.
  intros Hp Hlen Hlen' Hudp. destruct s as [p i d].
  unfold sizeof_ethhdr, sizeof_iphdr, sizeof_udphdr in Hlen, Hlen'.
  cbn [protocol pkt] in *.
  unfold for_me, arrive.
  rewrite (bind_some ctx_protocol _ _ p _) by reflexivity.
  rewrite Hp, Z.eqb_refl. cbn [negb].
  erewrite bind_some by reflexivity. norm.
  unfold sizeof_ethhdr, sizeof_iphdr, sizeof_udphdr, iphdr_protocol.
  destruct (20 + 14 >? Z.of_nat (length d)) eqn:E1; [lia|].
  destruct (20 + 8 + 14 >? Z.of_nat (length d)) eqn:E2; [|lia].
  step ptr_load_ok.
  change (Z.to_nat (14 + 9)) with 23%nat. change (Z.to_nat 1) with 1%nat.
  rewrite host_load_1 by (apply length_slice; lia).
  fold (ip_proto d). rewrite Hudp, Z.eqb_refl. reflexivity.
Qed.

Lemma for_me_verdict e s :
  exists tr,
    for_me e (arrive s) =
    Some (if for_me_accepts e s then 1 else TCX_PASS,
          {| skb := s; tgt_index := None; trace := tr |}).
Proof.
  unfold for_me_accepts.
  destruct (Z.eqb_spec (protocol s) (bpf_htons e ETH_P_IP)) as [Hp | Hp]; cbn [andb].
  2:{ exists []. apply (for_me_not_ip e (arrive s)). exact Hp. }
  destruct (Z_lt_le_dec (Z.of_nat (length (pkt s))) (sizeof_ethhdr + sizeof_iphdr))
    as [Hshort | Hlong].
  { exists []. rewrite (for_me_short e (arrive s)) by exact Hshort.
    unfold sizeof_ethhdr, sizeof_iphdr, sizeof_udphdr in *.
    destruct (20 + 8 + 14 <=? Z.of_nat (length (pkt s))) eqn:E; [lia | reflexivity]. }
  assert (Hlong' : sizeof_iphdr + sizeof_ethhdr <= Z.of_nat (length (pkt s)))
    by (unfold sizeof_ethhdr, sizeof_iphdr in *; lia).
  destruct (Z.eqb_spec (ip_proto (pkt s)) IPPROTO_UDP) as [Hu | Hu].
  2:{ eexists. rewrite (for_me_not_udp e s Hp Hlong' Hu).
      rewrite andb_false_r. reflexivity. }
  destruct (Z.leb_spec (sizeof_iphdr + sizeof_udphdr + sizeof_ethhdr)
              (Z.of_nat (length (pkt s)))) as [H42 | H42]; cbn [andb].
  - apply for_me_run. repeat split; assumption.
  - eexists. rewrite (for_me_no_udp_header e s Hp Hlong' H42 Hu). reflexivity.
Qed.

(** X1: on every frame [for_me] returns 1 when the link protocol is IPv4,
    the buffer holds the link, network and transport headers, the network
    protocol is UDP and both ports are 862, and pass-through otherwise; it
    leaves the frame as it was and records no redirect target. *)
Theorem for_me_decides e s :
  option_map fst (for_me e (arrive s)) =
    Some (if for_me_accepts e s then 1 else TCX_PASS) /\
  option_map (fun r => skb (snd r)) (for_me e (arrive s)) = Some s /\
  option_map (fun r => tgt_index (snd r)) (for_me e (arrive s)) = Some None.
Proof.
  destruct (for_me_verdict e s) as [tr ->]. repeat split.
Qed.

(** X2: when [skb->protocol] is not the IPv4 ethertype [for_me] returns
    pass-through without any access to packet memory, whatever the frame
    holds. *)
Theorem for_me_ignores_non_ipv4 e s :
  protocol s <> bpf_htons e ETH_P_IP ->
  for_me e (arrive s) = Some (TCX_PASS, arrive s).
Proof. intros Hp. apply (for_me_not_ip e (arrive s)). exact Hp. Qed.

Lemma for_me_ignores_non_ipv4_witness :
  protocol (arp_skb LittleEndian) <> bpf_htons LittleEndian ETH_P_IP /\
  for_me LittleEndian (arrive (arp_skb LittleEndian)) =
    Some (TCX_PASS, arrive (arp_skb LittleEndian)).
Proof.
  assert (Hp : protocol (arp_skb LittleEndian) <> bpf_htons LittleEndian ETH_P_IP)
    by (vm_compute; discriminate).
  split; [exact Hp|].
  apply (for_me_ignores_non_ipv4 LittleEndian (arp_skb LittleEndian) Hp).
Defined.

(** X3: an IPv4 frame with the link and network headers whose protocol
    byte is not UDP is passed through after a single one-byte load at
    offset 23. *)
Theorem for_me_rejects_non_udp e s :
  protocol s = bpf_htons e ETH_P_IP ->
  sizeof_ethhdr + sizeof_iphdr <= Z.of_nat (length (pkt s)) ->
  ip_proto (pkt s) <> IPPROTO_UDP ->
  for_me e (arrive s) =
    Some (TCX_PASS, {| skb := s; tgt_index := None; trace := [PtrLoad 23 1] |}).
Proof.
  intros Hp Hlen Hu. apply for_me_not_udp; assumption.
Qed.

Lemma for_me_rejects_non_udp_witness :
  (protocol (tcp_skb BigEndian) = bpf_htons BigEndian ETH_P_IP /\
   sizeof_ethhdr + sizeof_iphdr <= Z.of_nat (length (pkt (tcp_skb BigEndian))) /\
   ip_proto (pkt (tcp_skb BigEndian)) <> IPPROTO_UDP) /\
  for_me BigEndian (arrive (tcp_skb BigEndian)) =
    Some (TCX_PASS,
          {| skb := tcp_skb BigEndian; tgt_index := None; trace := [PtrLoad 23 1] |}).
Proof.
  assert (H1 : protocol (tcp_skb BigEndian) = bpf_htons BigEndian ETH_P_IP)
    by reflexivity.
  assert (H2 : sizeof_ethhdr + sizeof_iphdr <=
               Z.of_nat (length (pkt (tcp_skb BigEndian))))
    by (vm_compute; discriminate).
  assert (H3 : ip_proto (pkt (tcp_skb BigEndian)) <> IPPROTO_UDP)
    by (vm_compute; discriminate).
  split; [repeat split; assumption|].
  apply (for_me_rejects_non_udp BigEndian (tcp_skb BigEndian) H1 H2 H3).
Defined.

(** X4: an IPv4 frame of at least 34 and fewer than 42 bytes is passed
    through, and the only packet byte read is the protocol byte at offset
    23: the missing UDP header is never touched. *)
Theorem for_me_rejects_truncated_udp_header e s :
  protocol s = bpf_htons e ETH_P_IP ->
  sizeof_ethhdr + sizeof_iphdr <= Z.of_nat (length (pkt s)) ->
  Z.of_nat (length (pkt s)) < sizeof_ethhdr + sizeof_iphdr + sizeof_udphdr ->
  for_me e (arrive s) =
    Some (TCX_PASS, {| skb := s; tgt_index := None; trace := [PtrLoad 23 1] |}).
Proof.
  intros Hp Hlen Hlen'.
  assert (H1 : sizeof_iphdr + sizeof_ethhdr <= Z.of_nat (length (pkt s)))
    by (unfold sizeof_ethhdr, sizeof_iphdr in *; lia).
  assert (H2 : Z.of_nat (length (pkt s)) < sizeof_iphdr + sizeof_udphdr + sizeof_ethhdr)
    by (unfold sizeof_ethhdr, sizeof_iphdr, sizeof_udphdr in *; lia).
  destruct (Z.eq_dec (ip_proto (pkt s)) IPPROTO_UDP) as [Hu | Hu].
  - apply for_me_no_udp_header; assumption.
  - apply for_me_not_udp; assumption.
Qed.

Lemma for_me_rejects_truncated_udp_header_witness :
  (protocol (cut_skb LittleEndian) = bpf_htons LittleEndian ETH_P_IP /\
   sizeof_ethhdr + sizeof_iphdr <= Z.of_nat (length (pkt (cut_skb LittleEndian))) /\
   Z.of_nat (length (pkt (cut_skb LittleEndian))) <
     sizeof_ethhdr + sizeof_iphdr + sizeof_udphdr) /\
  for_me LittleEndian (arrive (cut_skb LittleEndian)) =
    Some (TCX_PASS,
          {| skb := cut_skb LittleEndian; tgt_index := None; trace := [PtrLoad 23 1] |}).
Proof.
  assert (H1 : protocol (cut_skb LittleEndian) = bpf_htons LittleEndian ETH_P_IP)
    by reflexivity.
  assert (H2 : sizeof_ethhdr + sizeof_iphdr <=
               Z.of_nat (length (pkt (cut_skb LittleEndian))))
    by (vm_compute; discriminate).
  assert (H3 : Z.of_nat (length (pkt (cut_skb LittleEndian))) <
               sizeof_ethhdr + sizeof_iphdr + sizeof_udphdr)
    by reflexivity.
  split; [repeat split; assumption|].
  apply (for_me_rejects_truncated_udp_header LittleEndian (cut_skb LittleEndian) H1 H2 H3).
Defined.

(** X5: [for_me] never faults and never writes: on every frame it returns 0
    or 1 with the frame unchanged after at most three pointer loads, each
    inside the buffer and inside the first 42 bytes. *)
Theorem for_me_reads_only_inside_headers e s :
  exists v tr,
    for_me e (arrive s) = Some (v, {| skb := s; tgt_index := None; trace := tr |}) /\
    (v = TCX_PASS \/ v = 1) /\
    (length tr <= 3)%nat /\
    Forall (is_ptr_load_below
              (Z.min (Z.of_nat (length (pkt s)))
                     (sizeof_ethhdr + sizeof_iphdr + sizeof_udphdr))) tr.
Proof.
  destruct s as [p i d].
  unfold for_me, bind, ctx_protocol, data_room, ptr_load, ret, arrive, log.
  cbn [skb pkt protocol trace tgt_index app].
  unfold sizeof_ethhdr, sizeof_iphdr, sizeof_udphdr, iphdr_protocol,
    udphdr_dest, udphdr_source, TCX_PASS.
  repeat match goal with
         | |- context [if ?c then _ else _] =>
             destruct c eqn:?;
             cbn [skb pkt protocol trace tgt_index app orb negb] in *
         end;
    try lia;
    do 2 eexists; (split; [reflexivity|]);
    (split; [auto|]); (split; [cbn; lia|]);
    repeat constructor; lia.
Qed.

Lemma bswap16_involutive x : bswap16 (bswap16 x) = x mod 2 ^ 16.
Proof.
  unfold bswap16.
  rewrite split_le_combine' by apply length_be_split.
  rewrite rev_involutive. apply le_combine_split.
Qed.

Lemma bpf_htons_inj e x y :
  0 <= x < 2 ^ 16 -> 0 <= y < 2 ^ 16 -> bpf_htons e x = bpf_htons e y -> x = y.
Proof.
  intros Hx Hy H. destruct e; [|exact H].
  apply (f_equal bswap16) in H. cbn [bpf_htons] in H.
  rewrite !bswap16_involutive, !Z.mod_small in H by assumption. exact H.
Qed.

(** X6: the verdict of [for_me] depends only on [skb->protocol], the buffer
    length, the byte at offset 23 and the four port bytes at offsets
    34..37; the IP version and header length, the addresses and the
    payload play no part. *)
Theorem for_me_depends_only_on_examined_fields e s1 s2 :
  protocol s1 = protocol s2 ->
  length (pkt s1) = length (pkt s2) ->
  slice 23 1 (pkt s1) = slice 23 1 (pkt s2) ->
  slice 34 4 (pkt s1) = slice 34 4 (pkt s2) ->
  option_map fst (for_me e (arrive s1)) = option_map fst (for_me e (arrive s2)).
Proof.
  intros Hp Hl H23 H34.
  destruct (for_me_verdict e s1) as [tr1 ->], (for_me_verdict e s2) as [tr2 ->].
  cbn [option_map fst]. do 2 f_equal.
  unfold for_me_accepts, both_ports_862, ip_proto, udp_dest_port, udp_source_port.
  assert (Hs : slice 34 2 (pkt s1) = slice 34 2 (pkt s2)).
  { apply (f_equal (firstn 2)) in H34. unfold slice in *.
    rewrite !firstn_firstn in H34. exact H34. }
  assert (Hd : slice 36 2 (pkt s1) = slice 36 2 (pkt s2)).
  { apply (f_equal (skipn 2)) in H34. unfold slice in *.
    rewrite !skipn_firstn_comm, !skipn_skipn in H34. exact H34. }
  rewrite Hp, Hl, H23, Hs, Hd. reflexivity.
Qed.

Lemma for_me_depends_only_on_examined_fields_witness :
  (protocol (sample_skb LittleEndian 862 862) = protocol (odd_skb LittleEndian) /\
   length (pkt (sample_skb LittleEndian 862 862)) = length (pkt (odd_skb LittleEndian)) /\
   slice 23 1 (pkt (sample_skb LittleEndian 862 862)) =
     slice 23 1 (pkt (odd_skb LittleEndian)) /\
   slice 34 4 (pkt (sample_skb LittleEndian 862 862)) =
     slice 34 4 (pkt (odd_skb LittleEndian))) /\
  pkt (sample_skb LittleEndian 862 862) <> pkt (odd_skb LittleEndian) /\
  option_map fst (for_me LittleEndian (arrive (sample_skb LittleEndian 862 862))) =
    option_map fst (for_me LittleEndian (arrive (odd_skb LittleEndian))).
Proof.
  split; [repeat split; reflexivity|].
  split; [vm_compute; discriminate|].
  apply (for_me_depends_only_on_examined_fields LittleEndian
           (sample_skb LittleEndian 862 862) (odd_skb LittleEndian));
    reflexivity.
Defined.

(** X7: for a 16-bit ethertype [p], delivered in [skb->protocol] in network
    byte order, [for_me] gives the same verdict on a little-endian and on a
    big-endian host. *)
Theorem for_me_host_independent p i d :
  0 <= p < 2 ^ 16 ->
  option_map fst
    (for_me LittleEndian
       (arrive {| protocol := bpf_htons LittleEndian p; ifindex := i; pkt := d |})) =
  option_map fst
    (for_me BigEndian
       (arrive {| protocol := bpf_htons BigEndian p; ifindex := i; pkt := d |})).
Proof.
  intros Hp.
  destruct (for_me_verdict LittleEndian
              {| protocol := bpf_htons LittleEndian p; ifindex := i; pkt := d |})
    as [tr1 ->].
  destruct (for_me_verdict BigEndian
              {| protocol := bpf_htons BigEndian p; ifindex := i; pkt := d |})
    as [tr2 ->].
  cbn [option_map fst]. unfold for_me_accepts. cbn [protocol pkt].
  assert (Heq : (bpf_htons LittleEndian p =? bpf_htons LittleEndian ETH_P_IP) =
                (bpf_htons BigEndian p =? bpf_htons BigEndian ETH_P_IP)).
  { destruct (Z.eqb_spec (bpf_htons BigEndian p) (bpf_htons BigEndian ETH_P_IP))
      as [E | E].
    - cbn [bpf_htons] in E. rewrite E. apply Z.eqb_refl.
    - apply Z.eqb_neq. intros E'. apply E.
      apply bpf_htons_inj in E'; [| exact Hp | unfold ETH_P_IP; lia].
      rewrite E'. reflexivity. }
  rewrite Heq. reflexivity.
Qed.

Lemma for_me_host_independent_witness :
  0 <= ETH_P_IP < 2 ^ 16 /\
  option_map fst
    (for_me LittleEndian
       (arrive {| protocol := bpf_htons LittleEndian ETH_P_IP; ifindex := 3;
                  pkt := udp_frame 862 862 |})) =
  option_map fst
    (for_me BigEndian
       (arrive {| protocol := bpf_htons BigEndian ETH_P_IP; ifindex := 3;
                  pkt := udp_frame 862 862 |})).
Proof.
  assert (H : 0 <= ETH_P_IP < 2 ^ 16) by (unfold ETH_P_IP; lia).
  split; [exact H|].
  apply (for_me_host_independent ETH_P_IP 3 (udp_frame 862 862) H).
Defined.

(** X8: an accepted frame has at least [stampoffset 0 = 42] bytes and no
    more is guaranteed: the same frame cut right after the UDP header is
    accepted as well, so a caller must check the payload length itself. *)
Theorem for_me_accepts_headers_alone e s :
  option_map fst (for_me e (arrive s)) = Some 1 ->
  stampoffset 0 <= Z.of_nat (length (pkt s)) /\
  option_map fst
    (for_me e (arrive {| protocol := protocol s; ifindex := ifindex s;
                         pkt := firstn 42 (pkt s) |})) = Some 1.
Proof.
  intros Hacc.
  destruct (for_me_verdict e s) as [tr Hrun]. rewrite Hrun in Hacc.
  cbn [option_map fst] in Hacc.
  destruct (for_me_accepts e s) eqn:Ha; [|discriminate Hacc].
  unfold for_me_accepts in Ha.
  apply andb_true_iff in Ha. destruct Ha as [Ha Hports].
  apply andb_true_iff in Ha. destruct Ha as [Ha Hudp].
  apply andb_true_iff in Ha. destruct Ha as [Hp Hlen].
  apply Z.leb_le in Hlen. unfold sizeof_iphdr, sizeof_udphdr, sizeof_ethhdr in Hlen.
  split; [change (stampoffset 0) with 42; lia|].
  destruct (for_me_verdict e {| protocol := protocol s; ifindex := ifindex s;
                                pkt := firstn 42 (pkt s) |}) as [tr' ->].
  cbn [option_map fst]. do 2 f_equal.
  unfold for_me_accepts. cbn [protocol pkt].
  rewrite Hp. cbn [andb].
  assert (Hsl : forall off len, (off + len <= 42)%nat ->
            slice off len (firstn 42 (pkt s)) = slice off len (pkt s)).
  { intros off len H. unfold slice.
    rewrite skipn_firstn_comm, firstn_firstn. f_equal. lia. }
  unfold both_ports_862, ip_proto, udp_dest_port, udp_source_port in *.
  rewrite !Hsl by lia. rewrite Hudp, Hports.
  rewrite firstn_length_le by lia. reflexivity.
Qed.

Lemma for_me_accepts_headers_alone_witness :
  option_map fst (for_me BigEndian (arrive (sample_skb BigEndian 862 862))) = Some 1 /\
  option_map fst
    (for_me BigEndian
       (arrive {| protocol := protocol (sample_skb BigEndian 862 862);
                  ifindex := ifindex (sample_skb BigEndian 862 862);
                  pkt := firstn 42 (pkt (sample_skb BigEndian 862 862)) |})) = Some 1.
Proof.
  assert (H : option_map fst (for_me BigEndian (arrive (sample_skb BigEndian 862 862)))
              = Some 1) by reflexivity.
  split; [exact H|].
  apply (for_me_accepts_headers_alone BigEndian (sample_skb BigEndian 862 862) H).
Defined.

(** ** The turnaround on every frame *)

(** X9: [pkt_turnaround] does the same on a little-endian and on a
    big-endian host: same verdict, same frame, same accesses. *)
Theorem pkt_turnaround_host_independent s :
  pkt_turnaround LittleEndian (arrive s) = pkt_turnaround BigEndian (arrive s).
Proof.
  destruct (Z_lt_le_dec (Z.of_nat (length (pkt s))) (sizeof_ethhdr + sizeof_iphdr))
    as [Hshort | Hlong].
  - rewrite !(pkt_turnaround_short _ (arrive s)) by exact Hshort. reflexivity.
  - rewrite !pkt_turnaround_long by exact Hlong. reflexivity.
Qed.

(** X10: [pkt_turnaround] never faults; it returns the redirect verdict and
    records the ingress interface exactly when the buffer holds 34 bytes
    or more, and pass-through with no target otherwise; the frame length
    and the context fields are kept and every access lies inside the
    buffer. *)
Theorem pkt_turnaround_verdict_by_length e s :
  exists v m',
    pkt_turnaround e (arrive s) = Some (v, m') /\
    v = (if sizeof_ethhdr + sizeof_iphdr <=? Z.of_nat (length (pkt s))
         then TCX_REDIRECT else TCX_PASS) /\
    tgt_index m' = (if sizeof_ethhdr + sizeof_iphdr <=? Z.of_nat (length (pkt s))
                    then Some (ifindex s) else None) /\
    length (pkt (skb m')) = length (pkt s) /\
    protocol (skb m') = protocol s /\ ifindex (skb m') = ifindex s /\
    Forall (in_bounds (Z.of_nat (length (pkt s)))) (trace m').
Proof.
  destruct (Z.leb_spec (sizeof_ethhdr + sizeof_iphdr) (Z.of_nat (length (pkt s))))
    as [Hlong | Hshort].
  - do 2 eexists. split; [apply pkt_turnaround_long; exact Hlong|].
    unfold sizeof_ethhdr, sizeof_iphdr in Hlong.
    cbn [skb pkt tgt_index protocol ifindex trace].
    repeat split; try (apply length_turned; lia).
    repeat constructor; cbn; lia.
  - do 2 eexists. split; [apply (pkt_turnaround_short e (arrive s)); exact Hshort|].
    cbn [arrive skb pkt tgt_index protocol ifindex trace].
    repeat split. constructor.
Qed.

Lemma turned_ip_header_words d :
  34 <= Z.of_nat (length d) ->
  Permutation (words16 (ip_header (turned d))) (words16 (ip_header d)).
Proof.
  intros Hlen.
  destruct (long_frame d Hlen) as (hd & tl & -> & Hhd).
  explode hd.
  cbn [ip_header slice turned eth_source eth_dest ip_saddr ip_daddr skipn firstn app words16].
  do 6 apply perm_skip.
  match goal with
  | |- Permutation [?a; ?b; ?c; ?x] [?c; ?x; ?a; ?b] =>
      apply (Permutation_app_comm [a; b] [c; x])
  end.
Qed.

Lemma sum_permutation (l l' : list Z) :
  Permutation l l' -> fold_right Z.add 0 l = fold_right Z.add 0 l'.
Proof.
  induction 1 as [| x l l' _ IH | x y l | l l' l'' _ IH1 _ IH2]; cbn [fold_right].
  - reflexivity.
  - rewrite IH. reflexivity.
  - lia.
  - rewrite IH1. exact IH2.
Qed.

Lemma turned_pseudo_header_words d :
  34 <= Z.of_nat (length d) ->
  Permutation (words16 (ip_saddr (turned d) ++ ip_daddr (turned d)))
              (words16 (ip_saddr d ++ ip_daddr d)).
Proof.
  intros Hlen.
  destruct (long_frame d Hlen) as (hd & tl & -> & Hhd).
  explode hd.
  cbn [slice turned eth_source eth_dest ip_saddr ip_daddr skipn firstn app words16].
  match goal with
  | |- Permutation [?a; ?b; ?c; ?x] [?c; ?x; ?a; ?b] =>
      apply (Permutation_app_comm [a; b] [c; x])
  end.
Qed.

Lemma turned_middle d :
  34 <= Z.of_nat (length d) -> slice 12 14 (turned d) = slice 12 14 d.
Proof.
  intros Hlen.
  destruct (long_frame d Hlen) as (hd & tl & -> & Hhd).
  explode hd. reflexivity.
Qed.

(** X11: the turnaround stores with flags 0 and recomputes no checksum, and
    none is needed: the 16-bit words of the IP header after the run are a
    permutation of those before, so their sum is the same; the words of
    the two addresses (the UDP pseudo-header) have the same sum too, and
    bytes 12..25 (with the IP checksum field) and everything from the UDP
    header on are unchanged. *)
Theorem pkt_turnaround_keeps_checksums_valid e s :
  sizeof_ethhdr + sizeof_iphdr <= Z.of_nat (length (pkt s)) ->
  exists m',
    pkt_turnaround e (arrive s) = Some (TCX_REDIRECT, m') /\
    Permutation (words16 (ip_header (pkt (skb m')))) (words16 (ip_header (pkt s))) /\
    word_sum (ip_header (pkt (skb m'))) = word_sum (ip_header (pkt s)) /\
    word_sum (ip_saddr (pkt (skb m')) ++ ip_daddr (pkt (skb m'))) =
      word_sum (ip_saddr (pkt s) ++ ip_daddr (pkt s)) /\
    slice 12 14 (pkt (skb m')) = slice 12 14 (pkt s) /\
    skipn 34 (pkt (skb m')) = skipn 34 (pkt s).
Proof.
  intros Hlen. eexists. split; [apply pkt_turnaround_long; exact Hlen|].
  unfold sizeof_ethhdr, sizeof_iphdr in Hlen. cbn [skb pkt].
  assert (H34 : 34 <= Z.of_nat (length (pkt s))) by lia.
  split; [apply turned_ip_header_words; exact H34|].
  split; [apply sum_permutation, turned_ip_header_words; exact H34|].
  split; [apply sum_permutation, turned_pseudo_header_words; exact H34|].
  split; [apply turned_middle; exact H34 | apply turned_tail; exact H34].
Qed.

Lemma pkt_turnaround_keeps_checksums_valid_witness :
  sizeof_ethhdr + sizeof_iphdr <=
    Z.of_nat (length (pkt (sample_skb LittleEndian 862 862))) /\
  exists m',
    pkt_turnaround LittleEndian (arrive (sample_skb LittleEndian 862 862)) =
      Some (TCX_REDIRECT, m') /\
    word_sum (ip_header (pkt (skb m'))) =
      word_sum (ip_header (pkt (sample_skb LittleEndian 862 862))).
Proof.
  assert (Hlen : sizeof_ethhdr + sizeof_iphdr <=
                 Z.of_nat (length (pkt (sample_skb LittleEndian 862 862))))
    by (vm_compute; discriminate).
  split; [exact Hlen|].
  destruct (pkt_turnaround_keeps_checksums_valid LittleEndian
              (sample_skb LittleEndian 862 862) Hlen)
    as (m' & Hrun & _ & Hsum & _).
  exists m'. split; assumption.
Defined.

Lemma turned_ip_proto d :
  34 <= Z.of_nat (length d) -> ip_proto (turned d) = ip_proto d.
Proof.
  intros Hlen.
  destruct (long_frame d Hlen) as (hd & tl & -> & Hhd).
  explode hd. reflexivity.
Qed.

Lemma turned_ports d :
  34 <= Z.of_nat (length d) ->
  udp_source_port (turned d) = udp_source_port d /\
  udp_dest_port (turned d) = udp_dest_port d.
Proof.
  intros Hlen. pose proof (turned_tail d Hlen) as Htail.
  assert (Hsl : forall off len, (34 <= off)%nat ->
            slice off len (turned d) = slice off len d).
  { intros off len Hoff. unfold slice.
    replace off with ((off - 34) + 34)%nat by lia.
    rewrite <- !skipn_skipn, Htail. reflexivity. }
  unfold udp_source_port, udp_dest_port. rewrite !Hsl by lia. split; reflexivity.
Qed.

(** X12: a frame [for_me] accepts is always turned around (redirect to the
    ingress interface), its ports are still 862 on both sides, and the
    reflected frame is itself accepted by [for_me]. *)
Theorem accepted_frame_is_reflected_and_accepted_again e s :
  option_map fst (for_me e (arrive s)) = Some 1 ->
  exists m',
    pkt_turnaround e (arrive s) = Some (TCX_REDIRECT, m') /\
    tgt_index m' = Some (ifindex s) /\
    udp_source_port (pkt (skb m')) = 862 /\
    udp_dest_port (pkt (skb m')) = 862 /\
    option_map fst (for_me e (arrive (skb m'))) = Some 1.
Proof.
  intros Hacc.
  destruct (for_me_verdict e s) as [tr Hrun]. rewrite Hrun in Hacc.
  cbn [option_map fst] in Hacc.
  destruct (for_me_accepts e s) eqn:Ha; [|discriminate Hacc].
  unfold for_me_accepts in Ha.
  apply andb_true_iff in Ha. destruct Ha as [Ha Hports].
  apply andb_true_iff in Ha. destruct Ha as [Ha Hudp].
  apply andb_true_iff in Ha. destruct Ha as [Hp Hlen].
  pose proof Hlen as Hlen'. apply Z.leb_le in Hlen'.
  unfold sizeof_iphdr, sizeof_udphdr, sizeof_ethhdr in Hlen'.
  assert (H34 : 34 <= Z.of_nat (length (pkt s))) by lia.
  destruct (turned_ports (pkt s) H34) as [Hsp Hdp].
  eexists. split; [apply pkt_turnaround_long; exact H34|].
  cbn [skb pkt tgt_index].
  pose proof Hports as Hports'. unfold both_ports_862 in Hports'.
  apply andb_true_iff in Hports'. destruct Hports' as [Hd862 Hs862].
  apply Z.eqb_eq in Hd862, Hs862.
  split; [reflexivity|].
  split; [rewrite Hsp; exact Hs862|].
  split; [rewrite Hdp; exact Hd862|].
  match goal with |- context [for_me e (arrive ?s')] =>
    destruct (for_me_verdict e s') as [tr' ->] end.
  cbn [option_map fst]. unfold for_me_accepts, both_ports_862. cbn [protocol pkt].
  rewrite length_turned, turned_ip_proto, Hsp, Hdp by exact H34.
  fold (both_ports_862 (pkt s)).
  rewrite Hp, Hlen, Hudp, Hports. reflexivity.
Qed.

Lemma accepted_frame_is_reflected_and_accepted_again_witness :
  option_map fst (for_me LittleEndian (arrive (sample_skb LittleEndian 862 862))) = Some 1 /\
  exists m',
    pkt_turnaround LittleEndian (arrive (sample_skb LittleEndian 862 862)) =
      Some (TCX_REDIRECT, m') /\
    option_map fst (for_me LittleEndian (arrive (skb m'))) = Some 1.
Proof.
  assert (H : option_map fst
                (for_me LittleEndian (arrive (sample_skb LittleEndian 862 862))) = Some 1)
    by reflexivity.
  split; [exact H|].
  destruct (accepted_frame_is_reflected_and_accepted_again LittleEndian
              (sample_skb LittleEndian 862 862) H)
    as (m' & Hrun & _ & _ & _ & Hagain).
  exists m'. split; assumption.
Defined.

(** ** The codec beyond its round trip *)

Lemma coprime_125_29 j : 1 <= j <= 28 -> (125 * j) mod 29 <> 0.
Proof.
  intros Hj.
  assert (j = 1 \/ j = 2 \/ j = 3 \/ j = 4 \/ j = 5 \/ j = 6 \/ j = 7 \/ j = 8 \/
          j = 9 \/ j = 10 \/ j = 11 \/ j = 12 \/ j = 13 \/ j = 14 \/ j = 15 \/
          j = 16 \/ j = 17 \/ j = 18 \/ j = 19 \/ j = 20 \/ j = 21 \/ j = 22 \/
          j = 23 \/ j = 24 \/ j = 25 \/ j = 26 \/ j = 27 \/ j = 28) as Hc by lia.
  repeat (destruct Hc as [-> | Hc]; [vm_compute; discriminate|]).
  subst j. vm_compute. discriminate.
Qed.

Lemma requantise r :
  0 <= r -> (r * 1000 / 232) * 232 / 1000 = r - (if r mod 29 =? 0 then 0 else 1).
Proof.
  intros Hr.
  destruct (Z.eqb_spec (r mod 29) 0) as [E | E].
  - assert (Hk : r = 29 * (r / 29)) by (pose proof (Z.div_mod r 29 ltac:(lia)); lia).
    set (k := r / 29) in *. rewrite Hk.
    replace (29 * k * 1000) with (k * 125 * 232) by lia.
    rewrite Z.div_mul by lia.
    replace (k * 125 * 232) with (29 * k * 1000) by lia.
    rewrite Z.div_mul by lia. lia.
  - pose proof (Z.div_mod r 29 ltac:(lia)) as Hd.
    pose proof (Z.mod_pos_bound r 29 ltac:(lia)) as Hb.
    set (k := r / 29) in *. set (j := r mod 29) in *.
    assert (Hj : 1 <= j <= 28) by lia.
    (* 1000 r = 232 q + rho with 0 < rho < 232 *)
    pose proof (Z.div_mod (r * 1000) 232 ltac:(lia)) as Hq.
    pose proof (Z.mod_pos_bound (r * 1000) 232 ltac:(lia)) as Hqb.
    set (q := r * 1000 / 232) in *. set (rho := (r * 1000) mod 232) in *.
    assert (Hrho : rho <> 0).
    { intros H0. rewrite H0 in Hq.
      assert (125 * j = 29 * (q - 125 * k)) by lia.
      assert (Hdiv : (125 * j) mod 29 = 0)
        by (rewrite H, Z.mul_comm; apply Z.mod_mul; lia).
      exact (coprime_125_29 j Hj Hdiv). }
    assert (Hres : q * 232 = (r - 1) * 1000 + (1000 - rho)) by lia.
    rewrite Hres. rewrite Z.div_add_l by lia.
    rewrite Z.div_small by lia. lia.
Qed.

Lemma timestamp_u64 e t : timestamp e t = timestamp e (u64 t).
Proof. unfold timestamp, u64. rewrite Z.mod_mod by lia. reflexivity. Qed.

(** X13: for every clock value the eight bytes [timestamp] leaves in memory
    are the same on either host: the big-endian low 32 bits of the seconds
    followed by those of the fraction. *)
Theorem timestamp_bytes_host_independent t :
  ntp_ts_bytes LittleEndian (fst (timestamp LittleEndian t)) =
  ntp_ts_bytes BigEndian (fst (timestamp BigEndian t)) /\
  ntp_ts_bytes BigEndian (fst (timestamp BigEndian t)) =
  be_split 4 (ntp_seconds_of (u64 t)) ++ be_split 4 (ntp_fraction_of (u64 t)).
Proof.
  assert (Hr : 0 <= u64 t < 2 ^ 64) by (apply Z.mod_pos_bound; lia).
  assert (H : forall e, ntp_ts_bytes e (fst (timestamp e t)) =
            be_split 4 (ntp_seconds_of (u64 t)) ++ be_split 4 (ntp_fraction_of (u64 t))).
  { intros e. rewrite (timestamp_u64 e t). unfold ntp_ts_bytes.
    rewrite timestamp_secs, timestamp_fracs, !host_store_htonl by exact Hr.
    unfold be_split, u32.
    rewrite <- !(le_split_mod _ 4). reflexivity. }
  split; [rewrite !H; reflexivity | apply H].
Qed.

(** X14: on the representable domain and below the wrap window (sub-second
    part under 996,432,413 ns) decoding an encoded time gives back [t]
    exactly when the sub-second part is a multiple of 29 ns, and [t - 1]
    otherwise. *)
Theorem roundtrip_exact_or_one_ns_short e t :
  0 <= t < 2 ^ 64 -> ntp_seconds_of t < 2 ^ 32 -> t mod NS_PER_SEC < 996432413 ->
  untimestamp e (fst (timestamp e t)) =
    t - (if (t mod NS_PER_SEC) mod 29 =? 0 then 0 else 1).
Proof.
  intros Ht Hs Hr. rewrite untimestamp_timestamp by exact Ht.
  pose proof (Z.mod_pos_bound t NS_PER_SEC ltac:(unfold NS_PER_SEC; lia)) as Hb.
  pose proof (Z.div_mod t NS_PER_SEC ltac:(unfold NS_PER_SEC; lia)) as Hd.
  assert (Hq : 0 <= t / NS_PER_SEC) by (apply Z.div_pos; unfold NS_PER_SEC; lia).
  assert (Hsec : u32 (ntp_seconds_of t) = ntp_seconds_of t).
  { apply Z.mod_small. unfold ntp_seconds_of, NTP_EPOCH_OFFSET in *. lia. }
  assert (Hfr : u32 (ntp_fraction_of t) = ntp_fraction_of t).
  { apply Z.mod_small. unfold ntp_fraction_of. split.
    - apply Z.div_pos; lia.
    - apply Z.div_lt_upper_bound; lia. }
  rewrite Hsec, Hfr. unfold ntp_fraction_of.
  rewrite requantise by lia.
  unfold ntp_seconds_of.
  replace (t / NS_PER_SEC + NTP_EPOCH_OFFSET - NTP_EPOCH_OFFSET) with (t / NS_PER_SEC)
    by lia.
  set (delta := if (t mod NS_PER_SEC) mod 29 =? 0 then 0 else 1).
  assert (Hdelta : 0 <= delta <= 1)
    by (unfold delta; destruct ((t mod NS_PER_SEC) mod 29 =? 0); lia).
  assert (Hpos : delta <= t mod NS_PER_SEC).
  { unfold delta. destruct (Z.eqb_spec ((t mod NS_PER_SEC) mod 29) 0) as [E | E]; [lia|].
    destruct (Z.eq_dec (t mod NS_PER_SEC) 0) as [E0 | E0]; [|lia].
    rewrite E0 in E. exfalso. apply E. reflexivity. }
  clearbody delta. unfold NS_PER_SEC in *.
  replace (t / 1000000000 * 1000000000 + (t mod 1000000000 - delta)) with (t - delta)
    by lia.
  apply Z.mod_small. lia.
Qed.

Lemma roundtrip_exact_or_one_ns_short_witness :
  (0 <= 1700000000000000058 < 2 ^ 64 /\
   ntp_seconds_of 1700000000000000058 < 2 ^ 32 /\
   1700000000000000058 mod NS_PER_SEC < 996432413) /\
  untimestamp LittleEndian (fst (timestamp LittleEndian 1700000000000000058)) =
    1700000000000000058 /\
  untimestamp LittleEndian (fst (timestamp LittleEndian 1700000000000000059)) =
    1700000000000000058.
Proof.
  split; [repeat split; try reflexivity; lia|].
  split.
  - apply (roundtrip_exact_or_one_ns_short LittleEndian 1700000000000000058);
      [lia | reflexivity | reflexivity].
  - apply (roundtrip_exact_or_one_ns_short LittleEndian 1700000000000000059);
      [lia | reflexivity | reflexivity].
Defined.

(** X15: on the whole representable domain, wrap window included, the
    decoded time is never later than the encoded one. *)
Theorem roundtrip_never_ahead e t :
  0 <= t < 2 ^ 64 -> ntp_seconds_of t < 2 ^ 32 ->
  0 <= untimestamp e (fst (timestamp e t)) <= t.
Proof.
  intros Ht Hs. rewrite untimestamp_timestamp by exact Ht.
  unfold ntp_fraction_of, ntp_seconds_of, u32, u64, NS_PER_SEC, NTP_EPOCH_OFFSET in *.
  change (2 ^ 32) with 4294967296 in *. change (2 ^ 64) with 18446744073709551616 in *.
  Z.div_mod_to_equations. lia.
Qed.

(** X16: from 2,085,978,496 s on (7 February 2036) the seconds plus the
    epoch offset no longer fit: the stored field is the sum reduced modulo
    [2^32], and decoding misses [t] by at least [10^18] ns. *)
Theorem timestamp_seconds_roll_over e t :
  0 <= t < 2 ^ 64 -> 2085978496 * NS_PER_SEC <= t ->
  be_combine (host_store e 4 (ntp_secs (fst (timestamp e t)))) =
    ntp_seconds_of t mod 2 ^ 32 /\
  ntp_seconds_of t mod 2 ^ 32 < ntp_seconds_of t /\
  10 ^ 18 <= Z.abs (untimestamp e (fst (timestamp e t)) - t).
Proof.
  intros Ht Hs. split; [|split].
  - rewrite timestamp_secs, host_store_htonl, be_combine_split by exact Ht.
    change (2 ^ (Z.of_nat 4 * 8)) with (2 ^ 32). apply u32_idem.
  - unfold ntp_seconds_of, NS_PER_SEC, NTP_EPOCH_OFFSET in *.
    change (2 ^ 32) with 4294967296 in *.
    Z.div_mod_to_equations. lia.
  - rewrite untimestamp_timestamp by exact Ht.
    unfold ntp_fraction_of, ntp_seconds_of, u32, u64, NS_PER_SEC, NTP_EPOCH_OFFSET in *.
    change (2 ^ 32) with 4294967296 in *. change (2 ^ 64) with 18446744073709551616 in *.
    change (10 ^ 18) with 1000000000000000000.
    Z.div_mod_to_equations. lia.
Qed.

Lemma roundtrip_never_ahead_witness :
  (0 <= 1999999999 < 2 ^ 64 /\ ntp_seconds_of 1999999999 < 2 ^ 32) /\
  0 <= untimestamp BigEndian (fst (timestamp BigEndian 1999999999)) <= 1999999999.
Proof.
  split; [split; [lia | reflexivity]|].
  apply (roundtrip_never_ahead BigEndian 1999999999); [lia | reflexivity].
Defined.

Lemma timestamp_seconds_roll_over_witness :
  (0 <= 2085978496000000000 < 2 ^ 64 /\
   2085978496 * NS_PER_SEC <= 2085978496000000000) /\
  be_combine (host_store LittleEndian 4
                (ntp_secs (fst (timestamp LittleEndian 2085978496000000000)))) = 0 /\
  10 ^ 18 <= Z.abs (untimestamp LittleEndian
                      (fst (timestamp LittleEndian 2085978496000000000))
                    - 2085978496000000000).
Proof.
  assert (H1 : 0 <= 2085978496000000000 < 2 ^ 64) by lia.
  assert (H2 : 2085978496 * NS_PER_SEC <= 2085978496000000000)
    by (vm_compute; discriminate).
  split; [split; assumption|].
  destruct (timestamp_seconds_roll_over LittleEndian 2085978496000000000 H1 H2)
    as (Hs & _ & Hd).
  split; [exact Hs | exact Hd].
Defined.

Lemma be_combine_bound bs : 0 <= be_combine bs < 2 ^ (8 * Z.of_nat (length bs)).
Proof.
  unfold be_combine. rewrite <- (length_rev bs). apply le_combine_bound.
Qed.

Lemma bpf_ntohl_host_load e bs :
  length bs = 4%nat -> bpf_ntohl e (host_load e bs) = be_combine bs.
Proof.
  intros Hlen. destruct e; [|reflexivity].
  cbn [bpf_ntohl host_load]. unfold bswap32, be_combine.
  rewrite split_le_combine' by exact Hlen. reflexivity.
Qed.

Lemma untimestamp_wire e bs bf :
  length bs = 4%nat -> length bf = 4%nat ->
  untimestamp e {| ntp_secs := host_load e bs; ntp_fracs := host_load e bf |} =
  u64 ((be_combine bs - NTP_EPOCH_OFFSET) * NS_PER_SEC + be_combine bf * 232 / 1000).
Proof.
  intros Hs Hf. unfold untimestamp. cbn [ntp_secs ntp_fracs].
  rewrite !bpf_ntohl_host_load by assumption.
  pose proof (be_combine_bound bs) as HS. pose proof (be_combine_bound bf) as HF.
  rewrite Hs in HS. rewrite Hf in HF.
  change (2 ^ (8 * Z.of_nat 4)) with (2 ^ 32) in *.
  set (S := be_combine bs) in *. set (F := be_combine bf) in *.
  unfold u64.
  rewrite (Z.mod_small S), (Z.mod_small F) by lia.
  rewrite (Z.mod_small (F * 232)) by lia.
  rewrite (Z.mod_small (F * 232 / 1000))
    by (split; [apply Z.div_pos; lia | apply Z.div_lt_upper_bound; lia]).
  rewrite <- (Z.add_mod_idemp_l ((S - NTP_EPOCH_OFFSET) * NS_PER_SEC)) by lia.
  rewrite <- (Z.mul_mod_idemp_l (S - NTP_EPOCH_OFFSET)) by lia.
  reflexivity.
Qed.

(** X17: [untimestamp] of a struct read from wire bytes whose seconds are
    at or after the Unix epoch is, on either host,
    [(seconds - 2208988800) * 10^9 + fraction * 232 / 1000] with no wrap;
    the nanosecond part stays below 996,432,413, so seconds and
    nanoseconds can be recovered by division. *)
Theorem untimestamp_decodes_wire_bytes e bs bf :
  length bs = 4%nat -> length bf = 4%nat ->
  NTP_EPOCH_OFFSET <= be_combine bs ->
  untimestamp e {| ntp_secs := host_load e bs; ntp_fracs := host_load e bf |} =
    (be_combine bs - NTP_EPOCH_OFFSET) * NS_PER_SEC + be_combine bf * 232 / 1000 /\
  untimestamp e {| ntp_secs := host_load e bs; ntp_fracs := host_load e bf |}
    / NS_PER_SEC = be_combine bs - NTP_EPOCH_OFFSET /\
  untimestamp e {| ntp_secs := host_load e bs; ntp_fracs := host_load e bf |}
    mod NS_PER_SEC = be_combine bf * 232 / 1000 /\
  be_combine bf * 232 / 1000 < 996432413.
Proof.
  intros Hs Hf Hoff. rewrite untimestamp_wire by assumption.
  pose proof (be_combine_bound bs) as HS. pose proof (be_combine_bound bf) as HF.
  rewrite Hs in HS. rewrite Hf in HF.
  change (2 ^ (8 * Z.of_nat 4)) with 4294967296 in *.
  set (S := be_combine bs) in *. set (F := be_combine bf) in *.
  clearbody S F.
  unfold u64, NS_PER_SEC, NTP_EPOCH_OFFSET in *.
  change (2 ^ 64) with 18446744073709551616.
  repeat split; Z.div_mod_to_equations; lia.
Qed.

(** X18: for wire seconds before the Unix epoch the subtraction of the
    offset wraps in 64 bits: the result is [2^64] minus the distance to
    1970, at least [2^63]. *)
Theorem untimestamp_before_unix_epoch_wraps e bs bf :
  length bs = 4%nat -> length bf = 4%nat ->
  be_combine bs < NTP_EPOCH_OFFSET ->
  untimestamp e {| ntp_secs := host_load e bs; ntp_fracs := host_load e bf |} =
    2 ^ 64 - (NTP_EPOCH_OFFSET - be_combine bs) * NS_PER_SEC
    + be_combine bf * 232 / 1000 /\
  2 ^ 63 <= untimestamp e {| ntp_secs := host_load e bs; ntp_fracs := host_load e bf |}.
Proof.
  intros Hs Hf Hoff. rewrite untimestamp_wire by assumption.
  pose proof (be_combine_bound bs) as HS. pose proof (be_combine_bound bf) as HF.
  rewrite Hs in HS. rewrite Hf in HF.
  change (2 ^ (8 * Z.of_nat 4)) with 4294967296 in *.
  set (S := be_combine bs) in *. set (F := be_combine bf) in *.
  clearbody S F.
  unfold u64, NS_PER_SEC, NTP_EPOCH_OFFSET in *.
  change (2 ^ 64) with 18446744073709551616. change (2 ^ 63) with 9223372036854775808.
  split; Z.div_mod_to_equations; lia.
Qed.

Lemma untimestamp_decodes_wire_bytes_witness :
  (length wire_2024 = 4%nat /\ length wire_half = 4%nat /\
   NTP_EPOCH_OFFSET <= be_combine wire_2024) /\
  untimestamp LittleEndian
    {| ntp_secs := host_load LittleEndian wire_2024;
       ntp_fracs := host_load LittleEndian wire_half |} =
    (be_combine wire_2024 - NTP_EPOCH_OFFSET) * NS_PER_SEC
    + be_combine wire_half * 232 / 1000.
Proof.
  assert (H : NTP_EPOCH_OFFSET <= be_combine wire_2024) by (vm_compute; discriminate).
  split; [repeat split; assumption|].
  destruct (untimestamp_decodes_wire_bytes LittleEndian wire_2024 wire_half
              eq_refl eq_refl H) as [Hv _].
  exact Hv.
Defined.

Lemma untimestamp_before_unix_epoch_wraps_witness :
  (length wire_1950 = 4%nat /\ length wire_half = 4%nat /\
   be_combine wire_1950 < NTP_EPOCH_OFFSET) /\
  2 ^ 63 <= untimestamp BigEndian
              {| ntp_secs := host_load BigEndian wire_1950;
                 ntp_fracs := host_load BigEndian wire_half |}.
Proof.
  assert (H : be_combine wire_1950 < NTP_EPOCH_OFFSET) by reflexivity.
  split; [repeat split; assumption|].
  destruct (untimestamp_before_unix_epoch_wraps BigEndian wire_1950 wire_half
              eq_refl eq_refl H) as [_ Hv].
  exact Hv.
Defined.

(** X19: below the wrap window the encoding is monotone: for [t1 <= t2]
    the wire seconds of [t1] are smaller, or equal with a fraction not
    larger. *)
Theorem timestamp_monotone_below_wrap e t1 t2 :
  0 <= t1 -> t1 <= t2 -> t2 < 2 ^ 64 -> ntp_seconds_of t2 < 2 ^ 32 ->
  t1 mod NS_PER_SEC < 996432413 -> t2 mod NS_PER_SEC < 996432413 ->
  be_combine (host_store e 4 (ntp_secs (fst (timestamp e t1)))) <
    be_combine (host_store e 4 (ntp_secs (fst (timestamp e t2)))) \/
  (be_combine (host_store e 4 (ntp_secs (fst (timestamp e t1)))) =
     be_combine (host_store e 4 (ntp_secs (fst (timestamp e t2)))) /\
   be_combine (host_store e 4 (ntp_fracs (fst (timestamp e t1)))) <=
     be_combine (host_store e 4 (ntp_fracs (fst (timestamp e t2))))).
Proof.
  intros H0 H12 H2 Hs Hr1 Hr2.
  rewrite !timestamp_secs, !timestamp_fracs, !host_store_htonl, !be_combine_split by lia.
  change (2 ^ (Z.of_nat 4 * 8)) with (2 ^ 32).
  fold (u32 (u32 (ntp_seconds_of t1))). fold (u32 (u32 (ntp_seconds_of t2))).
  fold (u32 (u32 (ntp_fraction_of t1))). fold (u32 (u32 (ntp_fraction_of t2))).
  rewrite !u32_idem.
  unfold ntp_fraction_of, ntp_seconds_of, u32, NS_PER_SEC, NTP_EPOCH_OFFSET in *.
  change (2 ^ 32) with 4294967296 in *. change (2 ^ 64) with 18446744073709551616 in *.
  Z.div_mod_to_equations. lia.
Qed.

Lemma timestamp_monotone_below_wrap_witness :
  (0 <= 1000000123 /\ 1000000123 <= 1000000999 /\ 1000000999 < 2 ^ 64 /\
   ntp_seconds_of 1000000999 < 2 ^ 32 /\
   1000000123 mod NS_PER_SEC < 996432413 /\ 1000000999 mod NS_PER_SEC < 996432413) /\
  be_combine (host_store LittleEndian 4 (ntp_fracs (fst (timestamp LittleEndian 1000000123))))
    <= be_combine (host_store LittleEndian 4
                     (ntp_fracs (fst (timestamp LittleEndian 1000000999)))).
Proof.
  split; [repeat split; try reflexivity; lia|].
  destruct (timestamp_monotone_below_wrap LittleEndian 1000000123 1000000999
              ltac:(lia) ltac:(lia) ltac:(lia) eq_refl eq_refl eq_refl)
    as [Hlt | [_ Hle]].
  - vm_compute in Hlt. discriminate Hlt.
  - exact Hle.
Defined.

(** ** The offset helper and the packet layouts *)

(** X20: on 32-bit offsets [stampoffset] is injective, wrap included: two
    fields never get the same frame offset. *)
Theorem stampoffset_injective a b :
  0 <= a < 2 ^ 32 -> 0 <= b < 2 ^ 32 -> stampoffset a = stampoffset b -> a = b.
Proof.
  unfold stampoffset, u32, u64, sizeof_ethhdr, sizeof_iphdr, sizeof_udphdr.
  change (2 ^ 32) with 4294967296. change (2 ^ 64) with 18446744073709551616.
  intros Ha Hb H. Z.div_mod_to_equations. lia.
Qed.

Lemma stampoffset_injective_witness :
  (0 <= 4294967295 < 2 ^ 32 /\ 0 <= 41 < 2 ^ 32) /\
  stampoffset 4294967295 <> stampoffset 41.
Proof.
  split; [lia|].
  intros H.
  pose proof (stampoffset_injective 4294967295 41 ltac:(lia) ltac:(lia) H) as E.
  discriminate E.
Defined.

(** X21: both packed packet structs are 44 bytes long, and for every field
    of either, [stampoffset] of its offset is 42 plus the offset (no wrap)
    and the field ends at or before [stampoffset] of the struct size, 86. *)
Theorem stamp_fields_inside_frame :
  senderpkt.size = 44 /\ reflectorpkt.size = 44 /\
  (forall f, exists o,
     senderpkt.off f = Some o /\ 0 <= o /\
     stampoffset o = 42 + o /\
     stampoffset o + senderpkt.width f <= stampoffset senderpkt.size) /\
  (forall f, exists o,
     reflectorpkt.off f = Some o /\ 0 <= o /\
     stampoffset o = 42 + o /\
     stampoffset o + reflectorpkt.width f <= stampoffset reflectorpkt.size).
Proof.
  split; [reflexivity|]. split; [reflexivity|].
  split; intros f; destruct f; eexists;
    (split; [reflexivity|]); repeat split; vm_compute; discriminate.
Qed.

(** X22: the reflector packet carries the sender's [seq], [t1_s], [t1_f]
    and [err] as one contiguous block: each copy lies at offset 24 (that
    of [s_seq]) plus the field's offset in the sender packet, with the
    same width. *)
Theorem reflector_echo_block f g o :
  reflectorpkt.echo f = Some g -> senderpkt.off f = Some o ->
  reflectorpkt.off g = Some (24 + o) /\
  reflectorpkt.width g = senderpkt.width f /\
  reflectorpkt.off reflectorpkt.s_seq = Some 24.
Proof.
  intros He Ho.
  destruct f; vm_compute in He; try discriminate He; injection He as <-;
    vm_compute in Ho; injection Ho as <-; repeat split.
Qed.

Lemma reflector_echo_block_witness :
  (reflectorpkt.echo senderpkt.t1_f = Some reflectorpkt.t1_f /\
   senderpkt.off senderpkt.t1_f = Some 8) /\
  reflectorpkt.off reflectorpkt.t1_f = Some 32.
Proof.
  split; [split; reflexivity|].
  destruct (reflector_echo_block senderpkt.t1_f reflectorpkt.t1_f 8 eq_refl eq_refl)
    as [H _].
  exact H.
Defined.
